(** * agents-main: the gateway token cache and the streaming request handler

    A shallow embedding of
      - [generalPurpose/src/mcp_client/client.py]: the process-wide OAuth
        token cache ([_get_access_token]) and the gateway client factory
        ([get_streamable_http_mcp_client]);
      - [generalPurpose/src/main.py]: the module-level choice of the gateway
        client ([strands_mcp_client]) and the async generator [invoke].

    Python objects that the code inspects are modelled as values of [pyval];
    the remote services (token endpoint, memory store, sandbox, gateway,
    model) are scripts chosen by the environment.  Timestamps and durations
    are whole seconds in [Z]: [time.time()] is the argument [now] of every
    operation that reads the clock. *)

From stdpp Require Import base list strings gmap pretty.
From Stdlib Require Import ZArith Lia Ascii.

#[local] Set Warnings "-register-all".
Open Scope Z_scope.

(** ** Python values, truthiness, exceptions *)

Module Py.

(** The values produced by [response.json()], carried by request payloads
    and found in stream events.  A [PDict] lists its items; a lookup takes
    the first item with the key. *)
Inductive pyval : Type :=
  | PNone
  | PBool (b : bool)
  | PInt (n : Z)
  | PStr (s : string)
  | PList (l : list pyval)
  | PDict (kv : list (string * pyval)).

(** [bool(v)], as used by [if v], [v and ...], [v or ...], [not v]. *)
Definition truthy (v : pyval) : bool :=
  match v with
  | PNone => false
  | PBool b => b
  | PInt n => negb (n =? 0)
  | PStr s => negb (String.eqb s "")
  | PList l => match l with [] => false | _ => true end
  | PDict kv => match kv with [] => false | _ => true end
  end.

(** A raised exception: its class name, whether the class derives from
    [Exception] (what [except Exception] tests; [KeyboardInterrupt],
    [SystemExit], [GeneratorExit] and [asyncio.CancelledError] do not),
    and [str(e)]. *)
Record exn : Type := Exn {
  exn_class : string;
  exn_is_Exception : bool;
  exn_str : string
}.

(** The result of running a piece of Python: a value or a raised exception. *)
Inductive outcome (A : Type) : Type :=
  | Returns (a : A)
  | Raises (e : exn).
Arguments Returns {A} a.
Arguments Raises {A} e.

Definition RuntimeError (msg : string) : exn := Exn "RuntimeError" true msg.
Definition KeyError (key : string) : exn :=
  Exn "KeyError" true ("'" +:+ key +:+ "'").
Definition TypeError (msg : string) : exn := Exn "TypeError" true msg.
Definition AttributeError (msg : string) : exn := Exn "AttributeError" true msg.
Definition OverflowError (msg : string) : exn := Exn "OverflowError" true msg.

(** [type(v).__name__] *)
Definition type_name (v : pyval) : string :=
  match v with
  | PNone => "NoneType"
  | PBool _ => "bool"
  | PInt _ => "int"
  | PStr _ => "str"
  | PList _ => "list"
  | PDict _ => "dict"
  end.

Fixpoint dict_lookup (key : string) (kv : list (string * pyval)) : option pyval :=
  match kv with
  | [] => None
  | (k, v) :: rest => if String.eqb k key then Some v else dict_lookup key rest
  end.

(** [key in d] for a dict [d]. *)
Definition dict_contains (key : string) (kv : list (string * pyval)) : bool :=
  match dict_lookup key kv with Some _ => true | None => false end.

(** [d.get(key, default)] for a dict [d]. *)
Definition dict_get (key : string) (default : pyval) (kv : list (string * pyval)) : pyval :=
  match dict_lookup key kv with Some v => v | None => default end.

(** [v[key]] with a string key: only a dict can be indexed that way. *)
Definition subscript (v : pyval) (key : string) : outcome pyval :=
  match v with
  | PDict kv =>
      match dict_lookup key kv with
      | Some x => Returns x
      | None => Raises (KeyError key)
      end
  | PList _ => Raises (TypeError "list indices must be integers or slices, not str")
  | PStr _ => Raises (TypeError "string indices must be integers, not 'str'")
  | _ => Raises (TypeError ("'" +:+ type_name v +:+ "' object is not subscriptable"))
  end.

(** [v.get(key, default)]: a method of dicts only. *)
Definition method_get (v : pyval) (key : string) (default : pyval) : outcome pyval :=
  match v with
  | PDict kv => Returns (dict_get key default kv)
  | _ => Raises (AttributeError ("'" +:+ type_name v +:+ "' object has no attribute 'get'"))
  end.

(** The integers from which the conversion of an [int] to a [float]
    fails: everything that rounds above the largest double. *)
Definition float_limit : Z := 2 ^ 1024 - 2 ^ 970.

(** [t + v] for a clock reading [t], a float: defined on numbers, and
    [bool] is a subclass of [int].  An [int] is converted to a float first,
    which raises [OverflowError] from [float_limit] on.  The sum is kept as
    the exact integer: that is the float sum as long as the clock, the
    number and their sum are integers below [2 ^ 53], the bound that the
    statements about the stored sum assume. *)
Definition add_seconds (t : Z) (v : pyval) : outcome Z :=
  match v with
  | PInt n =>
      if Z.abs n <? float_limit then Returns (t + n)
      else Raises (OverflowError "int too large to convert to float")
  | PBool b => Returns (t + (if b then 1 else 0))
  | _ => Raises (TypeError ("unsupported operand type(s) for +: 'float' and '"
                            +:+ type_name v +:+ "'"))
  end.

(** An f-string whose replacement fields hold arbitrary values is kept as
    its parts; a field that holds a string is that string. *)
Inductive fpart : Type :=
  | Lit (s : string)
  | Field (v : pyval).
Definition fstring : Type := list fpart.

(** [os.getenv(name)]: the string, or [None] when the variable is unset. *)
Definition getenv (environ : gmap string string) (name : string) : pyval :=
  match environ !! name with
  | Some s => PStr s
  | None => PNone
  end.

(** [v == s] for a string literal [s]. *)
Definition eq_str (v : pyval) (s : string) : bool :=
  match v with
  | PStr s' => String.eqb s' s
  | _ => false
  end.

(** Stateful Python: a function of the state that returns or raises, and
    the state it leaves behind either way (a raise undoes nothing). *)
Definition stateful (S A : Type) : Type := S → outcome A * S.

Definition ret {S A} (a : A) : stateful S A := fun st => (Returns a, st).
Definition raise {S A} (e : exn) : stateful S A := fun st => (Raises e, st).
Definition lift {S A} (o : outcome A) : stateful S A := fun st => (o, st).
Definition bind {S A B} (c : stateful S A) (k : A → stateful S B) : stateful S B :=
  fun st =>
    match c st with
    | (Returns a, st') => k a st'
    | (Raises e, st') => (Raises e, st')
    end.

(** [try: c  except Exception as e: h e] *)
Definition try_except {S A} (c : stateful S A) (h : exn → stateful S A) : stateful S A :=
  fun st =>
    match c st with
    | (Returns a, st') => (Returns a, st')
    | (Raises e, st') => if exn_is_Exception e then h e st' else (Raises e, st')
    end.

Declare Scope py_scope.
Delimit Scope py_scope with py.
Notation "'let!' x ':=' c 'in' k" := (bind c (fun x => k))
  (at level 10, x name, c at level 100, k at level 200) : py_scope.
Notation "c ';;' k" := (bind c (fun _ => k))
  (at level 100, k at level 200, right associativity) : py_scope.

End Py.
Export Py.
Open Scope py_scope.

(** ** mcp_client/client.py *)

Module Client.

(** The module constants read from the environment at import. *)
Record config : Type := Config {
  COGNITO_TOKEN_URL : pyval;
  COGNITO_CLIENT_ID : pyval;
  COGNITO_CLIENT_SECRET : pyval;
  COGNITO_SCOPE : pyval
}.

Definition load_config (environ : gmap string string) : config :=
  {| COGNITO_TOKEN_URL := getenv environ "COGNITO_TOKEN_URL";
     COGNITO_CLIENT_ID := getenv environ "COGNITO_CLIENT_ID";
     COGNITO_CLIENT_SECRET := getenv environ "COGNITO_CLIENT_SECRET";
     COGNITO_SCOPE := getenv environ "COGNITO_SCOPE" |}.

(** The arguments of the one [requests.post] call. *)
Record token_request : Type := TokenRequest {
  req_url : pyval;
  req_auth : pyval * pyval;
  req_data : list (string * pyval);
  req_headers : list (string * string)
}.

(** What the code can see of a [requests.Response]: the status (which it
    never reads) and the result of [response.json()]. *)
Record response : Type := Response {
  status_code : Z;
  json : outcome pyval
}.

(** The token endpoint: the outcome of the [n]-th [requests.post] of the
    process (counting from 0), which either raises or returns a response. *)
Definition endpoint : Type := nat → token_request → outcome response.

(** [_token_cache], the single slot shared by the whole process. *)
Record token_cache : Type := TokenCache {
  token : pyval;
  expires_at : Z
}.

(** The process state the module touches: the cache and the number of
    requests posted to the token endpoint so far. *)
Record state : Type := State {
  _token_cache : token_cache;
  posted : nat
}.

Definition initial_state : state :=
  {| _token_cache := {| token := PNone; expires_at := 0 |}; posted := 0 |}.

Definition M (A : Type) : Type := stateful state A.

(** Reads and writes of the two keys of [_token_cache]. *)
Definition read_cache : M token_cache := fun st => (Returns (_token_cache st), st).
Definition set_token (v : pyval) : M unit :=
  fun st => (Returns tt,
             {| _token_cache := {| token := v; expires_at := expires_at (_token_cache st) |};
                posted := posted st |}).
Definition set_expires_at (t : Z) : M unit :=
  fun st => (Returns tt,
             {| _token_cache := {| token := token (_token_cache st); expires_at := t |};
                posted := posted st |}).

(** [requests.post(...)]: one more request on the wire, answered by the
    endpoint. *)
Definition requests_post (ep : endpoint) (rq : token_request) : M response :=
  fun st => (ep (posted st) rq,
             {| _token_cache := _token_cache st; posted := S (posted st) |}).

(** The client-credentials grant of lines 31-39. *)
Definition grant_request (cfg : config) : token_request :=
  {| req_url := COGNITO_TOKEN_URL cfg;
     req_auth := (COGNITO_CLIENT_ID cfg, COGNITO_CLIENT_SECRET cfg);
     req_data := [("grant_type", PStr "client_credentials");
                  ("scope", COGNITO_SCOPE cfg)];
     req_headers := [("Content-Type", "application/x-www-form-urlencoded")] |}.

(** The test of line 26: a truthy cached token, and the clock strictly
    before the stored expiry less 300 seconds. *)
Definition cache_valid (c : token_cache) (current_time : Z) : bool :=
  truthy (token c) && (current_time <? expires_at c - 300).

(** Lines 18-49; [current_time] is the reading of [time.time()] on line 23. *)
Definition _get_access_token (cfg : config) (ep : endpoint) (current_time : Z) : M pyval :=
  let! cache := read_cache in
  if cache_valid cache current_time then ret (token cache)
  else
    let! response := requests_post ep (grant_request cfg) in
    let! token_data := lift (json response) in
    let! access_token := lift (subscript token_data "access_token") in
    let! expires_in := lift (method_get token_data "expires_in" (PInt 3600)) in
    set_token access_token ;;
    let! expiry := lift (add_seconds current_time expires_in) in
    set_expires_at expiry ;;
    ret access_token.

(** The transport opened by [streamablehttp_client(url, headers=...)]. *)
Record transport : Type := Transport {
  transport_url : pyval;
  transport_headers : list (string * fstring)
}.

(** An [MCPClient] holds the callable it was given and calls it whenever it
    opens a connection; the callable runs against the process state of that
    moment. *)
Record MCPClient : Type := MkMCPClient {
  transport_callable : state → transport
}.

(** Lines 52-60. *)
Definition get_streamable_http_mcp_client
    (environ : gmap string string) (cfg : config) (ep : endpoint) (now : Z) : M MCPClient :=
  let gateway_url := getenv environ "GATEWAY_URL" in
  if negb (truthy gateway_url) then
    raise (RuntimeError "Missing required environment variable: GATEWAY_URL")
  else
    let! access_token := _get_access_token cfg ep now in
    ret (MkMCPClient (fun _ =>
           {| transport_url := gateway_url;
              transport_headers :=
                [("Authorization", [Lit "Bearer "; Field access_token])] |})).

(** Calls of [_get_access_token] in a row, one per clock reading; a raised
    exception ends the run. *)
Fixpoint get_tokens (cfg : config) (ep : endpoint) (times : list Z) : M (list pyval) :=
  match times with
  | [] => ret []
  | t :: rest =>
      let! tok := _get_access_token cfg ep t in
      let! toks := get_tokens cfg ep rest in
      ret (tok :: toks)
  end.

End Client.

(** ** main.py *)

Module Main.
Import Client.

(** [strands_mcp_client]: the dummy of local development, or the gateway
    client built at import. *)
Inductive mcp_client : Type :=
  | LocalDevClient
  | GatewayClient (c : MCPClient).

(** Lines 13-20, run once when the module is imported. *)
Definition strands_mcp_client
    (environ : gmap string string) (cfg : config) (ep : endpoint) (now : Z) : M mcp_client :=
  if eq_str (getenv environ "LOCAL_DEV") "1" then ret LocalDevClient
  else
    let! c := get_streamable_http_mcp_client environ cfg ep now in
    ret (GatewayClient c).

(** *** The collaborators of [invoke] *)

(** [RetrievalConfig(top_k=..., relevance_score=...)]; the score, a decimal
    literal in the source, is kept in tenths. *)
Record RetrievalConfig : Type := MkRetrievalConfig {
  top_k : Z;
  relevance_score_tenths : Z
}.

Record AgentCoreMemoryConfig : Type := MkMemoryConfig {
  memory_id : pyval;
  mem_session_id : pyval;
  mem_actor_id : pyval;
  retrieval_config : list (fstring * RetrievalConfig)
}.

Record session_manager : Type := MkSessionManager {
  sm_config : AgentCoreMemoryConfig;
  sm_region : pyval
}.

Record code_interpreter : Type := MkCodeInterpreter {
  ci_region : pyval;
  ci_session_name : pyval;
  ci_auto_create : bool;
  ci_persist_sessions : bool
}.

Inductive tool : Type :=
  | code_interpreter_tool (ci : code_interpreter)
  | analyze_text
  | calculate_basic_stats
  | gateway_tool (name : string).

Record agent : Type := MkAgent {
  agent_model : string;
  agent_session_manager : option session_manager;
  agent_system_prompt : string;
  agent_tools : list tool
}.

(** One event of [agent.stream_async]: a dict. *)
Definition event : Type := list (string * pyval).

(** The async iterator returned by [agent.stream_async]: the events it
    hands out, and how the pull after the last one ends: [None] when the
    iterator is exhausted, [Some e] when it raises [e]. *)
Record stream : Type := Stream {
  events : list event;
  ending : option exn
}.

(** The remote services, as scripts: which constructor calls raise, what
    the gateway lists over a given transport, what the model streams. *)
Record services : Type := Services {
  memory_raises : AgentCoreMemoryConfig → pyval → option exn;
  sandbox_raises : code_interpreter → option exn;
  gateway_tools : transport → outcome (list tool);
  load_model : outcome string;
  agent_raises : agent → option exn;
  stream_async : agent → pyval → outcome stream
}.

Inductive log_level : Type := INFO | WARNING | ERROR.

Inductive log_message : Type :=
  | Message (m : fstring)
  | FormatExc (e : exn).

Definition log_record : Type := log_level * log_message.

(** [invoke] before its first [yield] changes nothing but the log. *)
Definition L (A : Type) : Type := stateful (list log_record) A.

Definition log_info (m : fstring) : L unit := fun lg => (Returns tt, lg ++ [(INFO, Message m)]).
Definition log_warning (m : fstring) : L unit := fun lg => (Returns tt, lg ++ [(WARNING, Message m)]).
Definition log_error (m : fstring) : L unit := fun lg => (Returns tt, lg ++ [(ERROR, Message m)]).
Definition log_traceback (e : exn) : L unit := fun lg => (Returns tt, lg ++ [(ERROR, FormatExc e)]).

(** A constructor of a collaborator: raises when the script says so. *)
Definition construct {A} (fault : option exn) (a : A) : L A :=
  match fault with
  | Some e => raise e
  | None => ret a
  end.

(** The request context: [getattr(context, 'session_id', None)]. *)
Record request_context : Type := Context {
  ctx_session_id : option pyval
}.

Definition getattr_session_id (context : request_context) : pyval :=
  match ctx_session_id context with
  | Some v => v
  | None => PNone
  end.

(** [a or b] *)
Definition py_or (a b : pyval) : pyval := if truthy a then a else b.

Definition SYSTEM_PROMPT : string := "
You are a versatile general-purpose AI assistant designed to help with a wide variety of tasks.

Your capabilities include:
- **Research & Analysis**: Analyzing information, summarizing content, extracting insights
- **Writing & Communication**: Creating content, editing text, improving clarity
- **Problem Solving**: Breaking down complex problems, logical reasoning, troubleshooting
- **Data Processing**: Basic statistics, analyzing numerical data, organizing information
- **Code Understanding**: Reading and explaining code in various programming languages
- **General Knowledge**: Answering questions across diverse topics and domains

When helping users:
- Be thorough but concise in your responses
- Ask clarifying questions when the request is ambiguous
- Provide step-by-step explanations for complex topics
- Use examples to illustrate concepts when helpful
- Suggest alternative approaches when appropriate
- Use the code interpreter for calculations, data analysis, or demonstrations
- Leverage your analysis tools for text processing and statistical analysis

Always aim to be helpful, accurate, and educational in your responses.
            ".

(** *** [invoke], lines 151-226: everything before the [try] *)

(** The [AgentCoreMemoryConfig(...)] of lines 164-174. *)
Definition memory_config (MEMORY_ID session_id actor_id : pyval) : AgentCoreMemoryConfig :=
  {| memory_id := MEMORY_ID;
     mem_session_id := session_id;
     mem_actor_id := actor_id;
     retrieval_config :=
       [([Lit "/"; Field actor_id; Lit "/facts"], MkRetrievalConfig 10 3);
        ([Lit "/"; Field actor_id; Lit "/preferences"], MkRetrievalConfig 5 3)] |}.

(** Lines 158-184.  [MEMORY_ID] is the module constant read from
    [BEDROCK_AGENTCORE_MEMORY_ID]. *)
Definition init_memory (svc : services) (MEMORY_ID REGION session_id actor_id : pyval)
  : L (option session_manager) :=
  if truthy MEMORY_ID then
    try_except
      (let config := memory_config MEMORY_ID session_id actor_id in
       let! sm := construct (memory_raises svc config REGION)
                            (MkSessionManager config REGION) in
       log_info [Lit "Memory session manager initialized - memory_id: "; Field MEMORY_ID;
                 Lit ", actor_id: "; Field actor_id;
                 Lit ", session_id: "; Field session_id] ;;
       ret (Some sm))
      (fun e =>
         log_error [Lit "Failed to initialize memory session manager: "; Lit (exn_str e)] ;;
         log_traceback e ;;
         ret None)
  else
    log_warning [Lit "MEMORY_ID is not set. Skipping memory session manager initialization."] ;;
    ret None.

(** [with strands_mcp_client as client: tools = client.list_tools_sync()].
    The gateway client opens its transport by calling the callable it
    holds, in the process state [st] of that moment. *)
Definition list_tools_sync (svc : services) (client : mcp_client) (st : state) : L (list tool) :=
  match client with
  | LocalDevClient => ret []
  | GatewayClient c => lift (gateway_tools svc (transport_callable c st))
  end.

(** Lines 187-226, given the session manager that lines 158-184 left. *)
Definition build_agent (svc : services) (client : mcp_client) (st : state)
    (REGION session_id : pyval) (sm : option session_manager) : L agent :=
  let ci := MkCodeInterpreter REGION session_id true true in
  let! code_interpreter := construct (sandbox_raises svc ci) ci in
  let! tools := list_tools_sync svc client st in
  let! model := lift (load_model svc) in
  let a := {| agent_model := model;
              agent_session_manager := sm;
              agent_system_prompt := SYSTEM_PROMPT;
              agent_tools := [code_interpreter_tool code_interpreter;
                              analyze_text; calculate_basic_stats] ++ tools |} in
  construct (agent_raises svc a) a.

Definition resolve_session_id (payload : list (string * pyval)) (context : request_context) : pyval :=
  py_or (getattr_session_id context) (dict_get "sessionId" (PStr "default") payload).

Definition resolve_actor_id (payload : list (string * pyval)) : pyval :=
  dict_get "userId" (PStr "default-user") payload.

(** What one call of [invoke] runs against: the services, the module
    globals ([strands_mcp_client], the environment behind [MEMORY_ID] and
    [REGION]), the process state, and the two arguments. *)
Record invocation : Type := Invocation {
  svc : services;
  client : mcp_client;
  process : state;
  environ : gmap string string;
  payload : list (string * pyval);
  context : request_context
}.

Definition MEMORY_ID (inv : invocation) : pyval :=
  getenv (environ inv) "BEDROCK_AGENTCORE_MEMORY_ID".
Definition REGION (inv : invocation) : pyval :=
  getenv (environ inv) "AWS_REGION".

Definition invoke_called (inv : invocation) : log_record :=
  (INFO, Message [Lit "Invoke called with session_id: ";
                  Field (resolve_session_id (payload inv) (context inv));
                  Lit ", actor_id: "; Field (resolve_actor_id (payload inv))]).

(** Lines 151-226. *)
Definition prepare (inv : invocation) : L agent :=
  let session_id := resolve_session_id (payload inv) (context inv) in
  let actor_id := resolve_actor_id (payload inv) in
  log_info [Lit "Invoke called with session_id: "; Field session_id;
            Lit ", actor_id: "; Field actor_id] ;;
  let! sm := init_memory (svc inv) (MEMORY_ID inv) (REGION inv) session_id actor_id in
  build_agent (svc inv) (client inv) (process inv) (REGION inv) session_id sm.

(** *** [invoke] as an async generator, lines 228-246 *)

(** ["data" in event and isinstance(event["data"], str)], and the string
    that is then yielded. *)
Definition event_text (ev : event) : option string :=
  if dict_contains "data" ev then
    match dict_get "data" PNone ev with
    | PStr data => Some data
    | _ => None
    end
  else None.

(** Where the generator is suspended between two pulls of its consumer. *)
Inductive generator : Type :=
  | Created
  | SuspendedInLoop (rest : list event) (ending : option exn)
  | SuspendedInHandler
  | Closed.

(** What a pull of the consumer gets. *)
Inductive resumption : Type :=
  | Yield (fragment : string)
  | StopAsyncIteration
  | Propagate (e : exn).

Definition error_fragment (e : exn) : string := "I encountered an error: " +:+ exn_str e.

Definition streaming_error (e : exn) : log_record :=
  (ERROR, Message [Lit "Error during streaming: "; Lit (exn_str e)]).

(** An exception raised inside the [try]: lines 244-246. *)
Definition on_raise (e : exn) (lg : list log_record)
  : resumption * generator * list log_record :=
  if exn_is_Exception e then
    (Yield (error_fragment e), SuspendedInHandler, lg ++ [streaming_error e])
  else (Propagate e, Closed, lg).

(** The loop of lines 232-235, run until its next [yield]. *)
Fixpoint async_for (evs : list event) (ending : option exn) (lg : list log_record)
  : resumption * generator * list log_record :=
  match evs with
  | ev :: rest =>
      match event_text ev with
      | Some data => (Yield data, SuspendedInLoop rest ending, lg)
      | None => async_for rest ending lg
      end
  | [] =>
      match ending with
      | None => (StopAsyncIteration, Closed, lg)
      | Some e => on_raise e lg
      end
  end.

(** [invoke], resumed by one pull of its consumer ([__anext__]): the body
    runs from where it is suspended to its next [yield], to its end, or to
    an exception nobody catches. *)
Definition invoke (inv : invocation) (g : generator) (lg : list log_record)
  : resumption * generator * list log_record :=
  match g with
  | Created =>
      match prepare inv lg with
      | (Raises e, lg') => (Propagate e, Closed, lg')
      | (Returns a, lg') =>
          match stream_async (svc inv) a (dict_get "prompt" PNone (payload inv)) with
          | Raises e => on_raise e lg'
          | Returns s => async_for (events s) (ending s) lg'
          end
      end
  | SuspendedInLoop rest ending => async_for rest ending lg
  | SuspendedInHandler => (StopAsyncIteration, Closed, lg)
  | Closed => (StopAsyncIteration, Closed, lg)
  end.

(** How the sequence a consumer reads comes to its end. *)
Inductive completion : Type :=
  | Exhausted
  | Faulted (e : exn).

(** A consumer that pulls until the generator stops ([async for] over
    [invoke]); [fuel] bounds the number of pulls. *)
Fixpoint consume (fuel : nat) (inv : invocation) (g : generator) (lg : list log_record)
  : option (list string * completion * list log_record) :=
  match fuel with
  | O => None
  | S fuel' =>
      match invoke inv g lg with
      | (Yield fragment, g', lg') =>
          match consume fuel' inv g' lg' with
          | Some (fragments, c, lg'') => Some (fragment :: fragments, c, lg'')
          | None => None
          end
      | (StopAsyncIteration, _, lg') => Some ([], Exhausted, lg')
      | (Propagate e, _, lg') => Some ([], Faulted e, lg')
      end
  end.

(** The text fragments of an event sequence, in order. *)
Definition text_fragments (evs : list event) : list string := omap event_text evs.

(** The event sequence under a turn: a [stream_async] call that raises is a
    sequence whose first pull raises. *)
Definition underlying (o : outcome stream) : stream :=
  match o with
  | Returns s => s
  | Raises e => {| events := []; ending := Some e |}
  end.

End Main.

(** ** Python [str] operations used by the tools

    A Python string is kept as its UTF-8 bytes.  The operations defined
    here agree with Python's on that encoding: concatenation, equality,
    [startswith], [in], [join], and [split] and [strip] with ASCII
    arguments.  Operations that depend on code points ([lower], [title],
    [len], [split()] on white space) are taken from [str_builtins]. *)

Module Str.

(** ["\n"] *)
Definition LF : string := String (Ascii.ascii_of_nat 10) "".


(** [needle in hay] *)
Fixpoint contains (needle hay : string) : bool :=
  String.prefix needle hay ||
  match hay with
  | EmptyString => false
  | String _ rest => contains needle rest
  end.

(** [sep.join(l)] *)
Fixpoint join (sep : string) (l : list string) : string :=
  match l with
  | [] => ""
  | [x] => x
  | x :: rest => x +:+ sep +:+ join sep rest
  end.

(** [s.split(sep)] for a separator [sep] of two characters [a], [b]: the
    text is cut at every occurrence of the separator, found from left to
    right; [cur] is the piece read so far. *)
Fixpoint split2 (a b : Ascii.ascii) (cur s : string) : list string :=
  match s with
  | EmptyString => [cur]
  | String c tl =>
      match tl with
      | EmptyString => [cur +:+ String c ""]
      | String d rest =>
          if Ascii.eqb c a && Ascii.eqb d b then cur :: split2 a b "" rest
          else split2 a b (cur +:+ String c "") tl
      end
  end.

(** [l[-1]] of a list that is not empty ([""] stands for the [IndexError]
    of the empty list, which [split] never returns). *)
Definition last_item (l : list string) : string := List.last l "".

(** [l[0]], likewise. *)
Definition first_item (l : list string) : string := List.hd "" l.

Fixpoint lstrip (chars : list Ascii.ascii) (s : string) : string :=
  match s with
  | EmptyString => ""
  | String c rest =>
      if existsb (Ascii.eqb c) chars then lstrip chars rest else s
  end.

(** [s.strip(chars)] for ASCII [chars]. *)
Definition strip (chars : list Ascii.ascii) (s : string) : string :=
  String.rev (lstrip chars (String.rev (lstrip chars s))).

(** The [str] methods that work on code points, and the iteration order of
    a [set]. *)
Record str_builtins : Type := StrBuiltins {
  str_lower : string → string;
  str_len : string → nat;
  str_split : string → list string;
  list_of_set : list string → list string
}.

End Str.

(** ** generalPurpose/src/main.py: the local tools *)

Module Tools.
Import Str.

Definition positive_words : list string :=
  ["good"; "great"; "excellent"; "amazing"; "wonderful"; "fantastic";
   "positive"; "happy"; "love"].

Definition negative_words : list string :=
  ["bad"; "terrible"; "awful"; "horrible"; "negative"; "sad"; "hate";
   "disappointing"].

Definition common_words : list string :=
  ["this"; "that"; "with"; "have"; "will"; "from"; "they"; "been"; "were";
   "said"; "each"; "which"; "their"; "time"; "about"].

(** The characters that line 71 strips from both ends of a keyword; the
    seventh is the double quote. *)
Definition punctuation : list Ascii.ascii :=
  ["."; ","; "!"; "?"; ";"; ":"; Ascii.ascii_of_nat 34; "("; ")"; "["; "]"]%char.

(** [sum(1 for word in words if word in text)] *)
Definition count_present (words : list string) (text : string) : nat :=
  length (filter (fun word => contains word text = true) words).

(** [analyze_text], lines 24-83; the caller that leaves [analysis_type] out
    gets ["summary"]. *)
Definition analyze_text (py : str_builtins) (text analysis_type : string) : string :=
  if String.eqb analysis_type "summary" then
    let sentences := split2 "." " " "" text in
    if (length sentences <=? 3)%nat then "Summary: " +:+ text
    else
      let summary := first_item sentences +:+ ". " +:+ last_item sentences in
      "Summary: " +:+ summary
  else if String.eqb analysis_type "sentiment" then
    let text_lower := str_lower py text in
    let pos_count := count_present positive_words text_lower in
    let neg_count := count_present negative_words text_lower in
    let sentiment :=
      if (neg_count <? pos_count)%nat then "Positive"
      else if (pos_count <? neg_count)%nat then "Negative"
      else "Neutral" in
    "Sentiment Analysis: " +:+ sentiment +:+ " (Positive indicators: " +:+ pretty pos_count
      +:+ ", Negative indicators: " +:+ pretty neg_count +:+ ")"
  else if String.eqb analysis_type "keywords" then
    let words := str_split py (str_lower py text) in
    let keywords :=
      map (strip punctuation)
        (filter (fun word =>
                   (4 <? str_len py word)%nat
                   && negb (existsb (String.eqb (str_lower py word)) common_words) = true)
           words) in
    let unique_keywords := take 10 (list_of_set py keywords) in
    "Keywords: " +:+ join ", " unique_keywords
  else if String.eqb analysis_type "structure" then
    let sentences := split2 "." " " "" text in
    let paragraphs := split2 (Ascii.ascii_of_nat 10) (Ascii.ascii_of_nat 10) "" text in
    let words := length (str_split py text) in
    "Structure Analysis:" +:+ LF +:+ "- Words: " +:+ pretty words +:+ LF
      +:+ "- Sentences: " +:+ pretty (length sentences) +:+ LF
      +:+ "- Paragraphs: " +:+ pretty (length paragraphs)
  else
    "Unknown analysis type: " +:+ analysis_type
      +:+ ". Available types: summary, sentiment, keywords, structure".

End Tools.

(** ** neoAmber/src/main.py: [generate_hook] *)

Module NeoAmber.
Import Str.



End NeoAmber.

(** ** newAgent/src/main.py: [audit_accessibility] *)

Module NewAgent.
Import Str.

Definition images_missing_alt : string := "âŒ Images missing alt attributes".
Definition button_lacks_name : string := "âš ï¸ Button may lack accessible name".
Definition inputs_missing_labels : string := "âŒ Form inputs missing associated labels".
Definition div_with_click : string := "âš ï¸ Div with click handler - consider using button".

(** Lines 158-180: the issues and the recommendations found in the
    lower-cased HTML, in the order they are appended. *)
Definition audit_findings (html_lower : string) : list string * list string :=
  let found (test : bool) (issue recommendation : string)
        (acc : list string * list string) :=
    if test then (fst acc ++ [issue], snd acc ++ [recommendation]) else acc in
  let acc := ([], []) in
  let acc :=
    found (contains "<img" html_lower && negb (contains "alt=" html_lower))
      images_missing_alt "Add descriptive alt text to all images" acc in
  let acc :=
    found (contains "<button" html_lower && negb (contains "aria-label" html_lower))
      button_lacks_name "Ensure buttons have visible text or aria-label" acc in
  let acc :=
    found (contains "<input" html_lower && negb (contains "<label" html_lower)
           && negb (contains "aria-label" html_lower))
      inputs_missing_labels "Add <label> elements or aria-label to form inputs" acc in
  let acc :=
    found (contains "<div" html_lower
           && (contains "onclick" html_lower || contains "click" html_lower))
      div_with_click "Use semantic elements (button, a) for interactive content" acc in
  (fst acc,
   snd acc ++ ["Verify color contrast meets WCAG 2.1 AA (4.5:1 for text)";
               "Ensure focus states are visible for keyboard navigation"]).

(** [for item in items: report += f"- {item}\n"] *)
Definition bullets (items : list string) : string :=
  fold_left (fun report item => report +:+ "- " +:+ item +:+ LF) items "".

(** Lines 182-196. *)
Definition render_report (issues recommendations : list string) : string :=
  let report := "## Accessibility Audit Report" +:+ LF +:+ LF in
  let report :=
    match issues with
    | _ :: _ => report +:+ "### Issues Found" +:+ LF +:+ bullets issues +:+ LF
    | [] => report +:+ "### âœ… No critical issues detected" +:+ LF +:+ LF
    end in
  report +:+ "### Recommendations" +:+ LF +:+ bullets recommendations.

(** [audit_accessibility], lines 149-196. *)
Definition audit_accessibility (py : str_builtins) (component_html : string) : string :=
  let findings := audit_findings (str_lower py component_html) in
  render_report (fst findings) (snd findings).

End NewAgent.

Import Client Main.

(** ** Vocabulary of the statements *)

(** Does [_get_access_token], called at [now] in state [st], post a request
    to the token endpoint? *)
Definition issues_request (cfg : config) (ep : endpoint) (now : Z) (st : state) : bool :=
  negb (posted (snd (_get_access_token cfg ep now st)) =? posted st)%nat.

(** The ways a refresh fails before line 46, with the exception that comes
    out: the POST raises, [response.json()] raises, or the decoded object
    has no [access_token] key. *)
Inductive refresh_fails : outcome response → exn → Prop :=
  | post_raises e :
      refresh_fails (Raises e) e
  | body_not_json status e :
      refresh_fails (Returns (Response status (Raises e))) e
  | access_token_missing status kv :
      dict_lookup "access_token" kv = None →
      refresh_fails (Returns (Response status (Returns (PDict kv)))) (KeyError "access_token").

(** Can [v] be added to a clock reading? *)
Definition is_number (v : pyval) : bool :=
  match v with
  | PInt _ | PBool _ => true
  | _ => false
  end.

(** The exception of line 58. *)
Definition missing_gateway_url : exn :=
  RuntimeError "Missing required environment variable: GATEWAY_URL".

(** The records of lines 184 and 179. *)
Definition memory_id_not_set : log_record :=
  (WARNING, Message [Lit "MEMORY_ID is not set. Skipping memory session manager initialization."]).

Definition memory_init_failed (e : exn) : log_record :=
  (ERROR, Message [Lit "Failed to initialize memory session manager: "; Lit (exn_str e)]).

(** The two ways [invoke] ends up without a memory session, with what it
    logs on the way: the identifier is absent, or the construction of the
    session manager raises an exception that [except Exception] catches. *)
Inductive memory_skipped (inv : invocation) : list log_record → Prop :=
  | memory_id_absent :
      environ inv !! "BEDROCK_AGENTCORE_MEMORY_ID" = None →
      memory_skipped inv [memory_id_not_set]
  | memory_construction_raises e :
      truthy (MEMORY_ID inv) = true →
      memory_raises (svc inv)
        (memory_config (MEMORY_ID inv) (resolve_session_id (payload inv) (context inv))
           (resolve_actor_id (payload inv)))
        (REGION inv) = Some e →
      exn_is_Exception e = true →
      memory_skipped inv [memory_init_failed e; (ERROR, FormatExc e)].

(** ** Sample environments *)

Definition sample_config : config :=
  {| COGNITO_TOKEN_URL := PStr "https://auth.example.com/oauth2/token";
     COGNITO_CLIENT_ID := PStr "client-id";
     COGNITO_CLIENT_SECRET := PStr "client-secret";
     COGNITO_SCOPE := PStr "gateway/invoke" |}.

(** A well-formed token response. *)
Definition token_body (access_token : string) (expires_in : Z) : pyval :=
  PDict [("access_token", PStr access_token);
         ("expires_in", PInt expires_in);
         ("token_type", PStr "Bearer")].

(** An endpoint that always answers 200 with the same one-hour token. *)
Definition steady_endpoint : endpoint :=
  fun _ _ => Returns (Response 200 (Returns (token_body "tok-A" 3600))).

(** An endpoint that hands out a new token on every request. *)
Definition rotating_endpoint : endpoint :=
  fun n _ =>
    Returns (Response 200 (Returns (token_body
      (match n with O => "tok-0" | 1%nat => "tok-1" | _ => "tok-n" end) 3600))).

(** An endpoint that answers with the given status and JSON body. *)
Definition answering (status : Z) (body : pyval) : endpoint :=
  fun _ _ => Returns (Response status (Returns body)).

(** An endpoint that cannot be reached. *)
Definition unreachable : endpoint :=
  fun _ _ => Raises (Exn "ConnectionError" true "Failed to establish a new connection").

(** The state after the first fetch of [tok-A] at time 1000. *)
Definition state_after_first_fetch : state :=
  snd (_get_access_token sample_config steady_endpoint 1000 initial_state).

Definition gateway_environ : gmap string string :=
  {[ "GATEWAY_URL" := "https://gateway.example.com/mcp" ]}.

Definition memory_environ : gmap string string :=
  {[ "BEDROCK_AGENTCORE_MEMORY_ID" := "memory-1" ]}.

(** The client built at import, at time 1000, against [rotating_endpoint],
    and the state the import leaves. *)
Definition imported_client : MCPClient :=
  MkMCPClient (fun _ =>
    {| transport_url := PStr "https://gateway.example.com/mcp";
       transport_headers := [("Authorization", [Lit "Bearer "; Field (PStr "tok-0")])] |}).

Definition state_after_import : state :=
  {| _token_cache := {| token := PStr "tok-0"; expires_at := 1000 + 3600 |}; posted := 1 |}.

(** Services in which only the memory store and the model stream vary, and
    a local-dev invocation over them. *)
Definition sample_services (memory_fault : option exn) (turn : outcome stream) : services :=
  {| memory_raises := fun _ _ => memory_fault;
     sandbox_raises := fun _ => None;
     gateway_tools := fun _ => Returns [gateway_tool "search"];
     load_model := Returns "sample-model";
     agent_raises := fun _ => None;
     stream_async := fun _ _ => turn |}.

Definition sample_invocation (env : gmap string string) (s : services) : invocation :=
  {| svc := s;
     client := LocalDevClient;
     process := initial_state;
     environ := env;
     payload := [("prompt", PStr "Hello")];
     context := {| ctx_session_id := None |} |}.

(** An invocation in a process whose import built [imported_client], with
    a gateway that answers the listing with [listing]. *)
Definition gateway_invocation (env : gmap string string) (listing : outcome (list tool))
  : invocation :=
  {| svc := {| memory_raises := fun _ _ => None;
               sandbox_raises := fun _ => None;
               gateway_tools := fun _ => listing;
               load_model := Returns "sample-model";
               agent_raises := fun _ => None;
               stream_async := fun _ _ => Returns {| events := []; ending := None |} |};
     client := GatewayClient imported_client;
     process := state_after_import;
     environ := env;
     payload := [("prompt", PStr "Hello"); ("sessionId", PStr "s-1"); ("userId", PStr "u-1")];
     context := {| ctx_session_id := None |} |}.

Definition gateway_down : exn := Exn "MCPClientInitializationError" true "connection refused".

(** The agent that [prepare] builds for a sample invocation. *)
Definition sample_agent : agent :=
  {| agent_model := "sample-model";
     agent_session_manager := None;
     agent_system_prompt := SYSTEM_PROMPT;
     agent_tools :=
       [code_interpreter_tool (MkCodeInterpreter PNone (PStr "default") true true);
        analyze_text; calculate_basic_stats] |}.

(** A text event, and an event that carries no text. *)
Definition text_event (data : string) : event := [("data", PStr data)].

Definition tool_event : event :=
  [("current_tool_use", PDict [("name", PStr "analyze_text")])].

Definition sample_events : list event :=
  [text_event "Hel"; tool_event; text_event "lo"].

(** Exceptions of both kinds: two that derive from [Exception], two that
    derive from [BaseException] only. *)
Definition throttled : exn := Exn "ModelThrottledException" true "Too many requests".

Definition memory_denied : exn := Exn "ClientError" true "AccessDeniedException".

Definition cancelled : exn := Exn "CancelledError" false "".

Definition interrupted : exn := Exn "KeyboardInterrupt" false "".

(** The log of a sample turn without [BEDROCK_AGENTCORE_MEMORY_ID], up to
    the [try]. *)
Definition sample_log (memory_fault : option exn) (turn : outcome stream) : list log_record :=
  [invoke_called (sample_invocation ∅ (sample_services memory_fault turn)); memory_id_not_set].

(** The first character of a text, as a text. *)
Definition head1 (s : string) : string :=
  match s with
  | EmptyString => ""
  | String c _ => String c ""
  end.

(** [str.lower], [len] and [str.split()] on ASCII text: the letters
    [A]-[Z] are lowered and the text is cut at runs of white space.  The
    order in which CPython lists a set of strings follows their hashes and
    changes from process to process; the listing here, by first
    occurrence, is one of those orders. *)
Definition lower_char (c : ascii) : ascii :=
  let n := nat_of_ascii c in
  if (65 <=? n)%nat && (n <=? 90)%nat then ascii_of_nat (n + 32) else c.

Fixpoint ascii_lower (s : string) : string :=
  match s with
  | EmptyString => ""
  | String c rest => String (lower_char c) (ascii_lower rest)
  end.

Definition is_space (c : ascii) : bool :=
  let n := nat_of_ascii c in
  ((9 <=? n)%nat && (n <=? 13)%nat) || ((28 <=? n)%nat && (n <=? 32)%nat).

Fixpoint split_space (cur s : string) : list string :=
  match s with
  | EmptyString => if String.eqb cur "" then [] else [cur]
  | String c rest =>
      if is_space c then
        if String.eqb cur "" then split_space "" rest else cur :: split_space "" rest
      else split_space (cur +:+ String c "") rest
  end.

Definition ascii_builtins : Str.str_builtins :=
  {| Str.str_lower := ascii_lower;
     Str.str_len := String.length;
     Str.str_split := split_space "";
     Str.list_of_set := remove_dups |}.

(** ** The token cache *)

Ltac run_py :=
  unfold _get_access_token, get_streamable_http_mcp_client, strands_mcp_client,
    bind, ret, raise, lift, read_cache, requests_post, set_token, set_expires_at;
  simpl.

Section TokenCache.

Variables (cfg : config) (ep : endpoint).

Lemma cache_valid_spec (c : token_cache) (now : Z) :
  cache_valid c now = true ↔ truthy (token c) = true ∧ now < expires_at c - 300.
Proof.
  unfold cache_valid. rewrite andb_true_iff, Z.ltb_lt. reflexivity.
Qed.

(** A duration below [2 ^ 53] is far inside the range of a float. *)
Lemma add_seconds_int (t n : Z) :
  0 ≤ n → n < 2 ^ 53 → add_seconds t (PInt n) = Returns (t + n).
Proof.
  intros Hpos Hlt. unfold add_seconds.
  replace (Z.abs n <? float_limit) with true; [reflexivity|].
  symmetry. apply Z.ltb_lt. rewrite Z.abs_eq by assumption.
  apply (Z.lt_trans _ (2 ^ 53)); [assumption | reflexivity].
Qed.

(** What [add_seconds] accepts: a boolean, or an integer that converts to a
    float. *)
Lemma add_seconds_returns (t : Z) (v : pyval) :
  (∃ sum, add_seconds t v = Returns sum)
  ↔ (∃ b, v = PBool b) ∨ (∃ n, v = PInt n ∧ Z.abs n < float_limit).
Proof.
  split.
  - intros [sum Hsum]. destruct v as [| b | n | | |]; try discriminate Hsum.
    + left. exists b. reflexivity.
    + right. exists n. split; [reflexivity|].
      unfold add_seconds in Hsum.
      destruct (Z.ltb_spec (Z.abs n) float_limit); [assumption | discriminate].
  - intros [[b ->] | (n & -> & Hn)]; simpl.
    + eexists. reflexivity.
    + apply Z.ltb_lt in Hn. rewrite Hn. eexists. reflexivity.
Qed.

(** A valid cache answers without touching the network or the state. *)
Lemma get_access_token_cached (now : Z) (st : state) :
  cache_valid (_token_cache st) now = true →
  _get_access_token cfg ep now st = (Returns (token (_token_cache st)), st).
Proof.
  intros Hv. run_py. rewrite Hv. reflexivity.
Qed.

(** A miss whose response carries a token and a usable [expires_in]. *)
Lemma get_access_token_refreshed (now : Z) (st : state) status kv tok expiry :
  cache_valid (_token_cache st) now = false →
  ep (posted st) (grant_request cfg) = Returns (Response status (Returns (PDict kv))) →
  dict_lookup "access_token" kv = Some tok →
  add_seconds now (dict_get "expires_in" (PInt 3600) kv) = Returns expiry →
  _get_access_token cfg ep now st
  = (Returns tok,
     {| _token_cache := {| token := tok; expires_at := expiry |};
        posted := S (posted st) |}).
Proof.
  intros Hv Hep Htok Hexp. run_py. rewrite Hv, Hep. simpl.
  rewrite Htok. simpl. rewrite Hexp. reflexivity.
Qed.

(** A miss always posts exactly one request, whatever comes of it. *)
Lemma get_access_token_miss_posts (now : Z) (st : state) :
  cache_valid (_token_cache st) now = false →
  posted (snd (_get_access_token cfg ep now st)) = S (posted st).
Proof.
  intros Hv. run_py. rewrite Hv.
  destruct (ep (posted st) (grant_request cfg)) as [[status [body|e]]|e]; simpl; try reflexivity.
  destruct body as [| | | |l|kv]; simpl; try reflexivity.
  destruct (dict_lookup "access_token" kv) as [tok|]; simpl; try reflexivity.
  destruct (add_seconds now _); reflexivity.
Qed.

(** A call that returns leaves the returned token in the cache. *)
Lemma get_access_token_returns_cached (now : Z) (st st1 : state) tok :
  _get_access_token cfg ep now st = (Returns tok, st1) →
  token (_token_cache st1) = tok.
Proof.
  run_py. destruct (cache_valid (_token_cache st) now).
  - intros [= <- <-]. reflexivity.
  - destruct (ep (posted st) (grant_request cfg)) as [[status [body|e]]|e]; simpl; try discriminate.
    destruct body as [| | | |l|kv]; simpl; try discriminate.
    destruct (dict_lookup "access_token" kv) as [tok'|]; simpl; try discriminate.
    destruct (add_seconds now _); simpl; try discriminate.
    intros [= <- <-]. reflexivity.
Qed.

Lemma issues_request_iff (now : Z) (st : state) :
  issues_request cfg ep now st = negb (cache_valid (_token_cache st) now).
Proof.
  unfold issues_request.
  destruct (cache_valid (_token_cache st) now) eqn:Hv.
  - rewrite get_access_token_cached by assumption. simpl.
    rewrite Nat.eqb_refl. reflexivity.
  - rewrite get_access_token_miss_posts by assumption.
    replace (S (posted st) =? posted st)%nat with false; [reflexivity|].
    symmetry. apply Nat.eqb_neq. lia.
Qed.

(** Calls made while the cache is valid return the cached token and leave
    the state alone. *)
Lemma get_tokens_cached (times : list Z) (st : state) :
  Forall (fun t => cache_valid (_token_cache st) t = true) times →
  get_tokens cfg ep times st
  = (Returns (replicate (length times) (token (_token_cache st))), st).
Proof.
  induction 1 as [|t times Ht _ IH]; [reflexivity|].
  simpl. unfold bind at 1. rewrite get_access_token_cached by assumption.
  unfold bind at 1. rewrite IH. reflexivity.
Qed.

End TokenCache.

Section TokenCacheClaims.

Variables (cfg : config) (ep : endpoint).

(** C2, as the code has it: for a (truthy) token fetched at time [T] from a
    response with [expires_in = E], where [T] and [E] are not negative and
    [T + E] is below [2 ^ 53] (so that the float arithmetic of the code is
    exact), the cache stores the expiry [T + E]; a call at [T + E - 301] is
    answered from the cache without a request to the endpoint, and a call
    at [T + E - 299] posts a new request. *)
Theorem refetch_boundary (T E : Z) (st : state) status kv tok :
  0 ≤ T →
  0 ≤ E →
  T + E < 2 ^ 53 →
  cache_valid (_token_cache st) T = false →
  ep (posted st) (grant_request cfg) = Returns (Response status (Returns (PDict kv))) →
  dict_lookup "access_token" kv = Some tok →
  dict_lookup "expires_in" kv = Some (PInt E) →
  truthy tok = true →
  let st1 := snd (_get_access_token cfg ep T st) in
  expires_at (_token_cache st1) = T + E ∧
  issues_request cfg ep (T + E - 301) st1 = false ∧
  fst (_get_access_token cfg ep (T + E - 301) st1) = Returns tok ∧
  issues_request cfg ep (T + E - 299) st1 = true.
Proof.
  intros HT HEpos Hexact Hmiss Hep Htok HE Htruthy st1.
  assert (Hst1 : st1 = {| _token_cache := {| token := tok; expires_at := T + E |};
                          posted := S (posted st) |}).
  { unfold st1. erewrite get_access_token_refreshed; eauto.
    unfold dict_get. rewrite HE. apply add_seconds_int; lia. }
  assert (Hvalid : cache_valid (_token_cache st1) (T + E - 301) = true).
  { rewrite Hst1. apply cache_valid_spec. simpl. split; [assumption | lia]. }
  assert (Hstale : cache_valid (_token_cache st1) (T + E - 299) = false).
  { rewrite Hst1. unfold cache_valid. simpl. rewrite Htruthy. simpl.
    apply Z.ltb_ge. lia. }
  repeat split.
  - rewrite Hst1. reflexivity.
  - rewrite issues_request_iff, Hvalid. reflexivity.
  - rewrite get_access_token_cached by assumption. rewrite Hst1. reflexivity.
  - rewrite issues_request_iff, Hstale. reflexivity.
Qed.

(** C3, as the code has it: a first call that misses and fetches a token
    [tok] that is not empty (one that line 26 takes for true), followed by
    any number of calls made while the clock is strictly before the stored
    expiry less 300 seconds: all [N] calls return [tok], and exactly one
    request was posted in total. *)
Theorem repeated_reads_post_once (t0 : Z) (times : list Z) (st st1 : state) tok :
  cache_valid (_token_cache st) t0 = false →
  _get_access_token cfg ep t0 st = (Returns tok, st1) →
  truthy tok = true →
  Forall (fun t => t < expires_at (_token_cache st1) - 300) times →
  get_tokens cfg ep (t0 :: times) st
  = (Returns (replicate (S (length times)) tok), st1)
  ∧ posted st1 = S (posted st).
Proof.
  intros Hmiss Hfirst Htruthy Htimes.
  pose proof (get_access_token_returns_cached cfg ep _ _ _ _ Hfirst) as Htok.
  pose proof (get_access_token_miss_posts cfg ep _ _ Hmiss) as Hposted.
  rewrite Hfirst in Hposted. simpl in Hposted.
  split; [|assumption].
  simpl. unfold bind at 1. rewrite Hfirst.
  unfold bind at 1. rewrite get_tokens_cached.
  - rewrite Htok. reflexivity.
  - eapply Forall_impl; [exact Htimes|].
    intros t Ht. apply cache_valid_spec. rewrite Htok. split; assumption.
Qed.

(** C5, as the code has it: there is no [AuthError].  On a cache miss the
    call raises whatever the failing step raised, unchanged: the exception
    of [requests.post], the exception of [response.json()], or the
    [KeyError] of the missing [access_token] key.  The status of the
    response is never read: a response of any status whose body is an
    object with an [access_token] and an [expires_in] that [add_seconds]
    accepts (none, or an integer that converts to a float) returns that
    [access_token]. *)
Theorem get_token_failure_modes (now : Z) (st : state) :
  cache_valid (_token_cache st) now = false →
  (∀ e, refresh_fails (ep (posted st) (grant_request cfg)) e →
        fst (_get_access_token cfg ep now st) = Raises e) ∧
  (∀ status kv tok expiry,
        ep (posted st) (grant_request cfg) = Returns (Response status (Returns (PDict kv))) →
        dict_lookup "access_token" kv = Some tok →
        add_seconds now (dict_get "expires_in" (PInt 3600) kv) = Returns expiry →
        fst (_get_access_token cfg ep now st) = Returns tok).
Proof.
  intros Hmiss. split.
  - intros e Hfail. run_py. rewrite Hmiss.
    inversion Hfail as [e' Heq | status e' Heq | status kv Hkv Heq]; subst; simpl;
      try reflexivity.
    rewrite Hkv. reflexivity.
  - intros status kv tok expiry Hep Htok Hexp.
    erewrite get_access_token_refreshed; eauto.
Qed.

(** C6: a refresh at time [T] whose response has no [expires_in] stores the
    expiry [T + 3600]. *)
Theorem expires_in_absent_defaults_to_3600 (T : Z) (st : state) status kv tok :
  cache_valid (_token_cache st) T = false →
  ep (posted st) (grant_request cfg) = Returns (Response status (Returns (PDict kv))) →
  dict_lookup "access_token" kv = Some tok →
  dict_lookup "expires_in" kv = None →
  _get_access_token cfg ep T st
  = (Returns tok,
     {| _token_cache := {| token := tok; expires_at := T + 3600 |};
        posted := S (posted st) |}).
Proof.
  intros Hmiss Hep Htok Habsent.
  eapply get_access_token_refreshed; eauto.
  unfold dict_get. rewrite Habsent. reflexivity.
Qed.

(** C9: when a refresh fails because the POST raises, the body is not JSON
    or the [access_token] key is missing, the exception propagates and the
    cache slot, token and expiry, is what it was before the call. *)
Theorem failed_refresh_keeps_cache (now : Z) (st : state) e :
  cache_valid (_token_cache st) now = false →
  refresh_fails (ep (posted st) (grant_request cfg)) e →
  _get_access_token cfg ep now st
  = (Raises e, {| _token_cache := _token_cache st; posted := S (posted st) |}).
Proof.
  intros Hmiss Hfail. run_py. rewrite Hmiss.
  inversion Hfail as [e' Heq | status e' Heq | status kv Hkv Heq]; subst; simpl;
    try reflexivity.
  rewrite Hkv. reflexivity.
Qed.

End TokenCacheClaims.

(** C2 as stated fails: with a token fetched at [T = 1000] and
    [E = 3600], the call at [T + E - 301] posts no request and the call at
    [T + E - 299] posts one. *)
Lemma refetch_boundary_as_stated_fails :
  issues_request sample_config steady_endpoint (1000 + 3600 - 301) state_after_first_fetch = false
  ∧ issues_request sample_config steady_endpoint (1000 + 3600 - 299) state_after_first_fetch = true.
Proof. split; vm_compute; reflexivity. Qed.

Lemma refetch_boundary_witness :
  1000 + 3600 < 2 ^ 53
  ∧ cache_valid (_token_cache initial_state) 1000 = false
  ∧ truthy (PStr "tok-A") = true
  ∧ expires_at (_token_cache state_after_first_fetch) = 1000 + 3600
  ∧ issues_request sample_config steady_endpoint (1000 + 3600 - 301) state_after_first_fetch = false
  ∧ fst (_get_access_token sample_config steady_endpoint (1000 + 3600 - 301)
           state_after_first_fetch) = Returns (PStr "tok-A")
  ∧ issues_request sample_config steady_endpoint (1000 + 3600 - 299) state_after_first_fetch = true.
Proof.
  split; [reflexivity|]. split; [reflexivity|]. split; [reflexivity|].
  apply (refetch_boundary sample_config steady_endpoint 1000 3600 initial_state 200
           [("access_token", PStr "tok-A"); ("expires_in", PInt 3600);
            ("token_type", PStr "Bearer")] (PStr "tok-A"));
    try reflexivity; discriminate.
Defined.

(** C3 as stated fails for an empty token: three calls in a row, the last
    two strictly before the stored expiry less 300 seconds, post three
    requests. *)
Lemma empty_token_is_fetched_on_every_read :
  get_tokens sample_config (answering 200 (token_body "" 3600)) [1000; 1001; 1002]
    initial_state
  = (Returns [PStr ""; PStr ""; PStr ""],
     {| _token_cache := {| token := PStr ""; expires_at := 1002 + 3600 |};
        posted := 3 |})
  ∧ 1001 < (1000 + 3600) - 300
  ∧ 1002 < (1001 + 3600) - 300.
Proof. repeat split. Qed.

Lemma repeated_reads_post_once_witness :
  get_tokens sample_config steady_endpoint [1000; 1001; 2500; 4299] initial_state
  = (Returns (replicate 4 (PStr "tok-A")), state_after_first_fetch)
  ∧ posted state_after_first_fetch = 1%nat.
Proof.
  apply (repeated_reads_post_once sample_config steady_endpoint 1000 [1001; 2500; 4299]
           initial_state state_after_first_fetch (PStr "tok-A")).
  - reflexivity.
  - reflexivity.
  - reflexivity.
  - repeat constructor.
Defined.

(** C5 as stated fails: a 400 response whose body is the usual OAuth error
    object makes the call raise [KeyError], and no [AuthError]. *)
Lemma missing_access_token_raises_KeyError :
  ∃ e, fst (_get_access_token sample_config
              (answering 400 (PDict [("error", PStr "invalid_client")]))
              1000 initial_state) = Raises e
       ∧ exn_class e = "KeyError"
       ∧ exn_class e ≠ "AuthError".
Proof.
  exists (KeyError "access_token"). repeat split. discriminate.
Qed.

Lemma get_token_failure_modes_witness :
  fst (_get_access_token sample_config unreachable 1000 initial_state)
  = Raises (Exn "ConnectionError" true "Failed to establish a new connection")
  ∧ fst (_get_access_token sample_config (answering 500 (token_body "tok-A" 3600))
           1000 initial_state) = Returns (PStr "tok-A").
Proof.
  split.
  - apply (proj1 (get_token_failure_modes sample_config unreachable 1000 initial_state
                    eq_refl)).
    apply post_raises.
  - apply (proj2 (get_token_failure_modes sample_config
                    (answering 500 (token_body "tok-A" 3600)) 1000 initial_state eq_refl)
             500 [("access_token", PStr "tok-A"); ("expires_in", PInt 3600);
                  ("token_type", PStr "Bearer")] (PStr "tok-A") 4600); reflexivity.
Defined.

Lemma expires_in_absent_defaults_to_3600_witness :
  _get_access_token sample_config (answering 200 (PDict [("access_token", PStr "tok-B")]))
    1000 initial_state
  = (Returns (PStr "tok-B"),
     {| _token_cache := {| token := PStr "tok-B"; expires_at := 1000 + 3600 |};
        posted := 1 |}).
Proof.
  apply (expires_in_absent_defaults_to_3600 sample_config
           (answering 200 (PDict [("access_token", PStr "tok-B")]))
           1000 initial_state 200 [("access_token", PStr "tok-B")] (PStr "tok-B"));
    reflexivity.
Defined.

Lemma failed_refresh_keeps_cache_witness :
  _get_access_token sample_config (answering 200 (PDict [("error", PStr "invalid_scope")]))
    (1000 + 3600) state_after_first_fetch
  = (Raises (KeyError "access_token"),
     {| _token_cache := {| token := PStr "tok-A"; expires_at := 1000 + 3600 |};
        posted := 2 |}).
Proof.
  apply (failed_refresh_keeps_cache sample_config
           (answering 200 (PDict [("error", PStr "invalid_scope")]))
           (1000 + 3600) state_after_first_fetch (KeyError "access_token")).
  - reflexivity.
  - apply access_token_missing. reflexivity.
Defined.

(** An integer [expires_in] too large for a float raises on line 47 as
    well, likewise after line 46 has stored the token. *)
Remark oversized_expires_in_raises_OverflowError :
  _get_access_token sample_config
    (answering 200 (PDict [("access_token", PStr "tok-D"); ("expires_in", PInt (10 ^ 400))]))
    (1000 + 3600) state_after_first_fetch
  = (Raises (OverflowError "int too large to convert to float"),
     {| _token_cache := {| token := PStr "tok-D"; expires_at := 1000 + 3600 |};
        posted := 2 |}).
Proof. reflexivity. Qed.

(** Outside the three failures of C9: an [expires_in] that cannot be added
    to the clock raises on line 47, after line 46 has stored the new token;
    the slot then holds the new token with the old expiry. *)
Remark unusable_expires_in_leaves_new_token :
  _get_access_token sample_config
    (answering 200 (PDict [("access_token", PStr "tok-C"); ("expires_in", PStr "3600")]))
    (1000 + 3600) state_after_first_fetch
  = (Raises (TypeError "unsupported operand type(s) for +: 'float' and 'str'"),
     {| _token_cache := {| token := PStr "tok-C"; expires_at := 1000 + 3600 |};
        posted := 2 |}).
Proof. reflexivity. Qed.

(** ** The gateway client *)

Section GatewayClient.

Variables (environ : gmap string string) (cfg : config) (ep : endpoint).

Lemma local_dev_inactive :
  environ !! "LOCAL_DEV" ≠ Some "1" →
  eq_str (getenv environ "LOCAL_DEV") "1" = false.
Proof.
  intros Hdev. unfold getenv.
  destruct (environ !! "LOCAL_DEV") as [s|]; [|reflexivity].
  simpl. apply String.eqb_neq. congruence.
Qed.

(** C7: with [GATEWAY_URL] unset and local-dev mode off, building the
    gateway client (at import, and on any direct call) raises the
    configuration error and leaves the process state as it was: no request
    has been posted to the token endpoint. *)
Theorem missing_gateway_url_raises_before_token_request (now : Z) (st : state) :
  environ !! "GATEWAY_URL" = None →
  environ !! "LOCAL_DEV" ≠ Some "1" →
  strands_mcp_client environ cfg ep now st = (Raises missing_gateway_url, st)
  ∧ get_streamable_http_mcp_client environ cfg ep now st = (Raises missing_gateway_url, st)
  ∧ posted (snd (strands_mcp_client environ cfg ep now st)) = posted st.
Proof.
  intros Hurl Hdev.
  assert (Hget : get_streamable_http_mcp_client environ cfg ep now st
                 = (Raises missing_gateway_url, st)).
  { unfold get_streamable_http_mcp_client, getenv. rewrite Hurl. reflexivity. }
  assert (Himport : strands_mcp_client environ cfg ep now st
                    = (Raises missing_gateway_url, st)).
  { unfold strands_mcp_client. rewrite (local_dev_inactive Hdev).
    unfold bind. rewrite Hget. reflexivity. }
  repeat split; try assumption. rewrite Himport. reflexivity.
Qed.

(** C10: outside local-dev mode, the import builds the gateway client with
    exactly one call of [_get_access_token]; the token that call returned
    is the one in the [Authorization] header of every transport the client
    opens afterwards, whatever the process state (and so the token cache)
    has become by then. *)
Theorem bearer_token_fixed_at_construction (now : Z) (st st1 : state) client :
  environ !! "LOCAL_DEV" ≠ Some "1" →
  strands_mcp_client environ cfg ep now st = (Returns client, st1) →
  ∃ c access_token,
    client = GatewayClient c
    ∧ _get_access_token cfg ep now st = (Returns access_token, st1)
    ∧ ∀ st' : state,
        transport_headers (transport_callable c st')
        = [("Authorization", [Lit "Bearer "; Field access_token])].
Proof.
  intros Hdev. unfold strands_mcp_client. rewrite (local_dev_inactive Hdev).
  unfold get_streamable_http_mcp_client.
  destruct (negb (truthy (getenv environ "GATEWAY_URL"))); [discriminate|].
  unfold bind, ret.
  destruct (_get_access_token cfg ep now st) as [[access_token|e] st2]; [|discriminate].
  intros [= <- <-]. eexists _, access_token. repeat split.
Qed.

End GatewayClient.

Lemma missing_gateway_url_raises_before_token_request_witness :
  strands_mcp_client ∅ sample_config steady_endpoint 1000 initial_state
  = (Raises missing_gateway_url, initial_state)
  ∧ get_streamable_http_mcp_client ∅ sample_config steady_endpoint 1000 initial_state
    = (Raises missing_gateway_url, initial_state)
  ∧ posted (snd (strands_mcp_client ∅ sample_config steady_endpoint 1000 initial_state))
    = posted initial_state.
Proof.
  apply (missing_gateway_url_raises_before_token_request ∅ sample_config steady_endpoint
           1000 initial_state).
  - reflexivity.
  - discriminate.
Defined.

Lemma bearer_token_fixed_at_construction_witness :
  strands_mcp_client gateway_environ sample_config rotating_endpoint 1000 initial_state
  = (Returns (GatewayClient imported_client), state_after_import)
  ∧ ∃ c access_token,
      GatewayClient imported_client = GatewayClient c
      ∧ _get_access_token sample_config rotating_endpoint 1000 initial_state
        = (Returns access_token, state_after_import)
      ∧ ∀ st' : state,
          transport_headers (transport_callable c st')
          = [("Authorization", [Lit "Bearer "; Field access_token])].
Proof.
  split; [reflexivity|].
  apply (bearer_token_fixed_at_construction gateway_environ sample_config rotating_endpoint
           1000 initial_state).
  - discriminate.
  - reflexivity.
Defined.

(** A later refresh replaces the cached token; the client built at import
    goes on sending the token it was built with. *)
Remark refreshed_cache_does_not_reach_client :
  let st' := snd (_get_access_token sample_config rotating_endpoint (1000 + 3600)
                    state_after_import) in
  token (_token_cache st') = PStr "tok-1"
  ∧ transport_headers (transport_callable imported_client st')
    = [("Authorization", [Lit "Bearer "; Field (PStr "tok-0")])].
Proof. split; reflexivity. Qed.

(** ** The request handler *)

Section Handler.

Variable inv : invocation.

Let session_id := resolve_session_id (payload inv) (context inv).
Let actor_id := resolve_actor_id (payload inv).
Let prompt := dict_get "prompt" PNone (payload inv).

Lemma init_memory_skipped (logged : list log_record) (lg : list log_record) :
  memory_skipped inv logged →
  init_memory (svc inv) (MEMORY_ID inv) (REGION inv) session_id actor_id lg
  = (Returns None, lg ++ logged).
Proof.
  intros [Habsent | e Hset Hraises Hexc]; unfold init_memory.
  - unfold MEMORY_ID, getenv. rewrite Habsent. reflexivity.
  - rewrite Hset. unfold try_except, bind, construct.
    fold session_id actor_id in Hraises. rewrite Hraises.
    unfold raise. rewrite Hexc.
    unfold log_error, log_traceback, ret. simpl.
    rewrite <- app_assoc. reflexivity.
Qed.

(** A pull of a generator that has not started yet runs the preparation and
    then behaves as a pull at the head of the underlying sequence. *)
Lemma invoke_created (lg lg1 : list log_record) a :
  prepare inv lg = (Returns a, lg1) →
  invoke inv Created lg
  = invoke inv (SuspendedInLoop (events (underlying (stream_async (svc inv) a prompt)))
                               (ending (underlying (stream_async (svc inv) a prompt)))) lg1.
Proof.
  intros Hprep. simpl. rewrite Hprep. fold prompt.
  destruct (stream_async (svc inv) a prompt); reflexivity.
Qed.

Lemma consume_created (fuel : nat) (lg lg1 : list log_record) a :
  prepare inv lg = (Returns a, lg1) →
  consume fuel inv Created lg
  = consume fuel inv (SuspendedInLoop (events (underlying (stream_async (svc inv) a prompt)))
                                      (ending (underlying (stream_async (svc inv) a prompt)))) lg1.
Proof.
  intros Hprep. destruct fuel as [|fuel]; [reflexivity|].
  cbn [consume]. rewrite (invoke_created _ _ _ Hprep). reflexivity.
Qed.

Lemma text_fragments_cons (ev : event) (evs : list event) :
  text_fragments (ev :: evs)
  = match event_text ev with
    | Some data => data :: text_fragments evs
    | None => text_fragments evs
    end.
Proof. reflexivity. Qed.

(** What a consumer reads from a generator suspended in the loop. *)
Lemma consume_suspended (evs : list event) (ending : option exn)
    (lg : list log_record) (fuel : nat) :
  (length evs + 2 ≤ fuel)%nat →
  consume fuel inv (SuspendedInLoop evs ending) lg
  = Some match ending with
         | None => (text_fragments evs, Exhausted, lg)
         | Some e =>
             if exn_is_Exception e
             then (text_fragments evs ++ [error_fragment e], Exhausted,
                   lg ++ [streaming_error e])
             else (text_fragments evs, Faulted e, lg)
         end.
Proof.
  revert fuel. induction evs as [|ev evs IH]; intros fuel Hfuel.
  - destruct fuel as [|[|fuel]]; [simpl in Hfuel; lia..|].
    destruct ending as [e|]; [|reflexivity].
    cbn [consume invoke async_for]. unfold on_raise.
    destruct (exn_is_Exception e); reflexivity.
  - destruct fuel as [|fuel]; [simpl in Hfuel; lia|].
    cbn [consume invoke async_for]. rewrite text_fragments_cons.
    destruct (event_text ev) as [data|] eqn:Hev.
    + rewrite IH by (simpl in Hfuel; lia).
      destruct ending as [e|]; [destruct (exn_is_Exception e)|]; reflexivity.
    + specialize (IH (S fuel)). cbn [consume invoke] in IH.
      rewrite IH by (simpl in Hfuel; lia). reflexivity.
Qed.

End Handler.

Section HandlerClaims.

Variable inv : invocation.

Let session_id := resolve_session_id (payload inv) (context inv).
Let actor_id := resolve_actor_id (payload inv).
Let prompt := dict_get "prompt" PNone (payload inv).

(** C1, as the code has it: when the pull after the events of the
    underlying sequence raises an exception [e] that derives from
    [Exception], the consumer reads the text fragments of those events, in
    order, then the one fragment ["I encountered an error: " ++ str(e)],
    and then the end of the sequence: nothing propagates. *)
Theorem stream_fault_becomes_final_fragment
    (lg lg1 : list log_record) a (s : stream) (e : exn) (fuel : nat) :
  prepare inv lg = (Returns a, lg1) →
  underlying (stream_async (svc inv) a prompt) = s →
  ending s = Some e →
  exn_is_Exception e = true →
  (length (events s) + 2 ≤ fuel)%nat →
  consume fuel inv Created lg
  = Some (text_fragments (events s) ++ ["I encountered an error: " +:+ exn_str e],
          Exhausted, lg1 ++ [streaming_error e]).
Proof.
  intros Hprep Hs Hend Hexc Hfuel.
  rewrite (consume_created inv _ _ _ _ Hprep). fold prompt. rewrite Hs.
  rewrite consume_suspended by assumption.
  rewrite Hend, Hexc. reflexivity.
Qed.

(** C4: when the underlying sequence ends without raising, the consumer
    reads exactly the text fragments of its events, in order, and then the
    end of the sequence. *)
Theorem stream_without_fault_is_forwarded
    (lg lg1 : list log_record) a (s : stream) (fuel : nat) :
  prepare inv lg = (Returns a, lg1) →
  stream_async (svc inv) a prompt = Returns s →
  ending s = None →
  (length (events s) + 2 ≤ fuel)%nat →
  consume fuel inv Created lg = Some (text_fragments (events s), Exhausted, lg1).
Proof.
  intros Hprep Hs Hend Hfuel.
  rewrite (consume_created inv _ _ _ _ Hprep). fold prompt. rewrite Hs. simpl underlying.
  rewrite consume_suspended by assumption.
  rewrite Hend. reflexivity.
Qed.

(** C8, as the code has it: when the memory-store identifier is absent, or
    when building the session manager raises an exception that derives
    from [Exception], [invoke] logs (the warning, or the error and its
    traceback), leaves the session manager absent without raising, and goes
    on exactly as lines 187-226 do with no session manager. *)
Theorem memory_unavailable_is_not_fatal (logged lg : list log_record) :
  memory_skipped inv logged →
  logged ≠ []
  ∧ init_memory (svc inv) (MEMORY_ID inv) (REGION inv) session_id actor_id lg
    = (Returns None, lg ++ logged)
  ∧ prepare inv lg
    = build_agent (svc inv) (client inv) (process inv) (REGION inv) session_id None
        (lg ++ invoke_called inv :: logged).
Proof.
  intros Hskip. split; [|split].
  - destruct Hskip; discriminate.
  - apply init_memory_skipped. assumption.
  - unfold prepare. fold session_id actor_id.
    unfold bind at 1. unfold log_info at 1. unfold bind at 1.
    rewrite (init_memory_skipped inv logged) by assumption.
    unfold invoke_called. fold session_id actor_id.
    rewrite <- app_assoc. reflexivity.
Qed.

End HandlerClaims.

(** When every event is a text fragment, what the consumer reads is what
    the underlying sequence carried. *)
Lemma text_fragments_of_text_events (fragments : list string) :
  text_fragments (map text_event fragments) = fragments.
Proof.
  induction fragments as [|f fs IH]; [reflexivity|].
  cbn [map]. rewrite text_fragments_cons. cbn. rewrite IH. reflexivity.
Qed.

(** C1 as stated fails for a raise that does not derive from [Exception]:
    when the task is cancelled after two fragments, the consumer reads the
    two fragments and then the cancellation itself; no error fragment is
    produced. *)
Lemma cancellation_propagates :
  let turn := Returns {| events := sample_events; ending := Some cancelled |} in
  consume 5 (sample_invocation ∅ (sample_services None turn)) Created []
  = Some (["Hel"; "lo"], Faulted cancelled, sample_log None turn).
Proof. vm_compute. reflexivity. Qed.

Lemma stream_fault_becomes_final_fragment_witness :
  let turn := Returns {| events := sample_events; ending := Some throttled |} in
  consume 5 (sample_invocation ∅ (sample_services None turn)) Created []
  = Some (["Hel"; "lo"; "I encountered an error: Too many requests"], Exhausted,
          sample_log None turn ++ [streaming_error throttled]).
Proof.
  intros turn.
  apply (stream_fault_becomes_final_fragment
           (sample_invocation ∅ (sample_services None turn)) [] (sample_log None turn)
           sample_agent
           {| events := sample_events; ending := Some throttled |} throttled 5).
  - reflexivity.
  - reflexivity.
  - reflexivity.
  - reflexivity.
  - simpl. lia.
Defined.

Lemma stream_without_fault_is_forwarded_witness :
  let turn := Returns {| events := sample_events; ending := None |} in
  consume 5 (sample_invocation ∅ (sample_services None turn)) Created []
  = Some (["Hel"; "lo"], Exhausted, sample_log None turn).
Proof.
  intros turn.
  apply (stream_without_fault_is_forwarded
           (sample_invocation ∅ (sample_services None turn)) [] (sample_log None turn)
           sample_agent
           {| events := sample_events; ending := None |} 5).
  - reflexivity.
  - reflexivity.
  - reflexivity.
  - simpl. lia.
Defined.

(** C8 as stated fails for a raise that does not derive from [Exception]:
    an interrupt during the construction of the session manager is not
    caught, and the first pull of the handler raises it. *)
Lemma interrupt_during_memory_init_propagates :
  let turn := Returns {| events := sample_events; ending := None |} in
  let inv := sample_invocation memory_environ (sample_services (Some interrupted) turn) in
  fst (init_memory (svc inv) (MEMORY_ID inv) (REGION inv)
         (resolve_session_id (payload inv) (context inv))
         (resolve_actor_id (payload inv)) [])
  = Raises interrupted
  ∧ consume 5 inv Created [] = Some ([], Faulted interrupted, [invoke_called inv]).
Proof. split; vm_compute; reflexivity. Qed.

Lemma memory_unavailable_is_not_fatal_witness :
  let turn := Returns {| events := sample_events; ending := None |} in
  let inv := sample_invocation memory_environ (sample_services (Some memory_denied) turn) in
  let logged := [memory_init_failed memory_denied; (ERROR, FormatExc memory_denied)] in
  logged ≠ []
  ∧ init_memory (svc inv) (MEMORY_ID inv) (REGION inv)
      (resolve_session_id (payload inv) (context inv)) (resolve_actor_id (payload inv)) []
    = (Returns None, [] ++ logged)
  ∧ prepare inv []
    = build_agent (svc inv) (client inv) (process inv) (REGION inv)
        (resolve_session_id (payload inv) (context inv)) None
        ([] ++ invoke_called inv :: logged).
Proof.
  intros turn inv logged.
  apply (memory_unavailable_is_not_fatal inv logged []).
  apply (memory_construction_raises inv memory_denied); reflexivity.
Defined.

(** ** More on the token cache *)

Section TokenCacheMore.

Variables (cfg : config) (ep : endpoint).

(** X1: a call posts exactly one request to the token endpoint when the
    cache is not valid at that time, and none when it is; this holds
    whether the call returns or raises. *)
Theorem request_posted_iff_cache_stale (now : Z) (st : state) :
  posted (snd (_get_access_token cfg ep now st))
  = if cache_valid (_token_cache st) now then posted st else S (posted st).
Proof.
  destruct (cache_valid (_token_cache st) now) eqn:Hv.
  - rewrite get_access_token_cached by assumption. reflexivity.
  - apply get_access_token_miss_posts. assumption.
Qed.

(** X2: when the response carries an [access_token] and an [expires_in]
    that is not a number, the call raises [TypeError] on line 47, after
    line 46 has stored the token: the slot then holds the new token with
    the expiry it had before. *)
Theorem unusable_expires_in_stores_token_only (now : Z) (st : state) status kv tok v :
  cache_valid (_token_cache st) now = false →
  ep (posted st) (grant_request cfg) = Returns (Response status (Returns (PDict kv))) →
  dict_lookup "access_token" kv = Some tok →
  dict_lookup "expires_in" kv = Some v →
  is_number v = false →
  ∃ e, exn_class e = "TypeError"
       ∧ _get_access_token cfg ep now st
         = (Raises e,
            {| _token_cache := {| token := tok;
                                  expires_at := expires_at (_token_cache st) |};
               posted := S (posted st) |}).
Proof.
  intros Hmiss Hep Htok Hexp Hnum. run_py. rewrite Hmiss, Hep. simpl.
  rewrite Htok. simpl. unfold dict_get. rewrite Hexp.
  destruct v; try discriminate Hnum; simpl; eexists; (split; [|reflexivity]); reflexivity.
Qed.

(** X3: a JSON body that is not an object (a list, a string, a number,
    [true], [null]) makes line 42 raise [TypeError]; the cache slot is
    unchanged. *)
Theorem non_object_body_raises_TypeError (now : Z) (st : state) status body :
  cache_valid (_token_cache st) now = false →
  ep (posted st) (grant_request cfg) = Returns (Response status (Returns body)) →
  (∀ kv, body ≠ PDict kv) →
  ∃ e, exn_class e = "TypeError"
       ∧ _get_access_token cfg ep now st
         = (Raises e, {| _token_cache := _token_cache st; posted := S (posted st) |}).
Proof.
  intros Hmiss Hep Hbody. run_py. rewrite Hmiss, Hep. simpl.
  destruct body as [| | | | |kv]; simpl;
    try (eexists; (split; [|reflexivity]); reflexivity).
  exfalso. apply (Hbody kv). reflexivity.
Qed.

(** X4: a token that Python takes for false (the empty string, [None],
    [0]) is stored but not served: a call that returns it leaves it in the
    cache, and in every state where it is the cached token the next call
    posts a new request, at whatever time it is made. *)
Theorem falsy_token_is_not_served_from_cache (T : Z) (st st1 : state) tok :
  _get_access_token cfg ep T st = (Returns tok, st1) →
  truthy tok = false →
  token (_token_cache st1) = tok
  ∧ ∀ (st' : state) (t : Z),
      token (_token_cache st') = tok → issues_request cfg ep t st' = true.
Proof.
  intros Hcall Hfalsy. split.
  - exact (get_access_token_returns_cached cfg ep _ _ _ _ Hcall).
  - intros st' t Hcached.
    rewrite issues_request_iff. unfold cache_valid.
    rewrite Hcached, Hfalsy. reflexivity.
Qed.

(** X5: a token that a call returns is the one in the cache afterwards, and
    it is either served from an untouched cache strictly more than 300
    seconds before its expiry, or fetched by this very call. *)
Theorem served_token_is_fresh_or_fetched (now : Z) (st st1 : state) tok :
  _get_access_token cfg ep now st = (Returns tok, st1) →
  token (_token_cache st1) = tok
  ∧ ((st1 = st ∧ truthy tok = true ∧ now < expires_at (_token_cache st) - 300)
     ∨ (cache_valid (_token_cache st) now = false ∧ posted st1 = S (posted st))).
Proof.
  intros Hcall. split.
  - exact (get_access_token_returns_cached cfg ep _ _ _ _ Hcall).
  - destruct (cache_valid (_token_cache st) now) eqn:Hv.
    + left. rewrite get_access_token_cached in Hcall by assumption.
      injection Hcall as <- <-.
      apply cache_valid_spec in Hv. tauto.
    + right. split; [reflexivity|].
      pose proof (get_access_token_miss_posts cfg ep _ _ Hv) as Hposted.
      rewrite Hcall in Hposted. exact Hposted.
Qed.

End TokenCacheMore.

Lemma unusable_expires_in_stores_token_only_witness :
  ∃ e, exn_class e = "TypeError"
       ∧ _get_access_token sample_config
           (answering 200 (PDict [("access_token", PStr "tok-C"); ("expires_in", PNone)]))
           5000 state_after_first_fetch
         = (Raises e,
            {| _token_cache := {| token := PStr "tok-C"; expires_at := 1000 + 3600 |};
               posted := 2 |}).
Proof.
  apply (unusable_expires_in_stores_token_only sample_config
           (answering 200 (PDict [("access_token", PStr "tok-C"); ("expires_in", PNone)]))
           5000 state_after_first_fetch 200
           [("access_token", PStr "tok-C"); ("expires_in", PNone)] (PStr "tok-C") PNone);
    reflexivity.
Defined.

Lemma non_object_body_raises_TypeError_witness :
  ∃ e, exn_class e = "TypeError"
       ∧ _get_access_token sample_config (answering 200 (PList [PStr "tok-A"]))
           1000 initial_state
         = (Raises e, {| _token_cache := {| token := PNone; expires_at := 0 |};
                         posted := 1 |}).
Proof.
  apply (non_object_body_raises_TypeError sample_config
           (answering 200 (PList [PStr "tok-A"])) 1000 initial_state 200
           (PList [PStr "tok-A"])).
  - reflexivity.
  - reflexivity.
  - discriminate.
Defined.

Lemma falsy_token_is_not_served_from_cache_witness :
  let st1 := {| _token_cache := {| token := PStr ""; expires_at := 1000 + 3600 |};
                posted := 1 |} in
  token (_token_cache st1) = PStr ""
  ∧ issues_request sample_config (answering 200 (PDict [("access_token", PStr "")])) 1001
      st1 = true.
Proof.
  intros st1.
  destruct (falsy_token_is_not_served_from_cache sample_config
              (answering 200 (PDict [("access_token", PStr "")])) 1000 initial_state
              st1 (PStr "") eq_refl eq_refl) as [Hcached Hnext].
  split; [exact Hcached|]. apply Hnext. reflexivity.
Defined.

Lemma served_token_is_fresh_or_fetched_witness :
  token (_token_cache state_after_first_fetch) = PStr "tok-A"
  ∧ ((state_after_first_fetch = state_after_first_fetch
      ∧ truthy (PStr "tok-A") = true
      ∧ 2000 < expires_at (_token_cache state_after_first_fetch) - 300)
     ∨ (cache_valid (_token_cache state_after_first_fetch) 2000 = false
        ∧ posted state_after_first_fetch = S (posted state_after_first_fetch))).
Proof.
  apply (served_token_is_fresh_or_fetched sample_config steady_endpoint 2000
           state_after_first_fetch state_after_first_fetch (PStr "tok-A")).
  reflexivity.
Defined.

(** ** More on the gateway client *)

Section GatewayClientMore.

Variables (environ : gmap string string) (cfg : config) (ep : endpoint).

(** A call that raises has posted a request. *)
Lemma get_access_token_raises_posts (now : Z) (st st1 : state) e :
  _get_access_token cfg ep now st = (Raises e, st1) →
  posted st1 = S (posted st).
Proof.
  intros Hcall.
  destruct (cache_valid (_token_cache st) now) eqn:Hv.
  - rewrite get_access_token_cached in Hcall by assumption. discriminate.
  - pose proof (get_access_token_miss_posts cfg ep _ _ Hv) as Hposted.
    rewrite Hcall in Hposted. exact Hposted.
Qed.

(** X6: in local-dev mode the import builds the dummy client whatever the
    rest of the environment holds, touches neither the token cache nor the
    token endpoint, and the dummy lists no tools without asking a gateway. *)
Theorem local_dev_import_needs_no_gateway (now : Z) (st : state) :
  environ !! "LOCAL_DEV" = Some "1" →
  strands_mcp_client environ cfg ep now st = (Returns LocalDevClient, st)
  ∧ ∀ (svc : services) (st' : state) (lg : list log_record),
      list_tools_sync svc LocalDevClient st' lg = (Returns [], lg).
Proof.
  intros Hdev. split; [|reflexivity].
  unfold strands_mcp_client, getenv. rewrite Hdev. reflexivity.
Qed.

(** X7: building the gateway client raises the missing-variable error and
    leaves the process state untouched exactly when [GATEWAY_URL] is unset
    or set to the empty string. *)
Theorem config_error_iff_gateway_url_blank (now : Z) (st : state) :
  get_streamable_http_mcp_client environ cfg ep now st = (Raises missing_gateway_url, st)
  ↔ environ !! "GATEWAY_URL" = None ∨ environ !! "GATEWAY_URL" = Some "".
Proof.
  unfold get_streamable_http_mcp_client, getenv. split.
  - destruct (environ !! "GATEWAY_URL") as [url|]; [|auto].
    simpl. destruct (String.eqb_spec url "") as [->|Hne]; [auto|].
    simpl. unfold bind, ret.
    destruct (_get_access_token cfg ep now st) as [[tok|e] st1] eqn:Hcall; [discriminate|].
    intros [= _ Hst]. apply get_access_token_raises_posts in Hcall.
    rewrite Hst in Hcall. lia.
  - intros [-> | ->]; reflexivity.
Qed.

(** X8: with a gateway URL in place, a token request that fails makes the
    construction fail with the same exception: no client is built, and
    outside local-dev mode the import of [main.py] fails with it. *)
Theorem token_failure_fails_construction (now : Z) (st st1 : state) url e :
  environ !! "GATEWAY_URL" = Some url →
  url ≠ "" →
  _get_access_token cfg ep now st = (Raises e, st1) →
  get_streamable_http_mcp_client environ cfg ep now st = (Raises e, st1)
  ∧ (environ !! "LOCAL_DEV" ≠ Some "1" →
     strands_mcp_client environ cfg ep now st = (Raises e, st1)).
Proof.
  intros Hurl Hne Hcall.
  assert (Hget : get_streamable_http_mcp_client environ cfg ep now st = (Raises e, st1)).
  { unfold get_streamable_http_mcp_client, getenv. rewrite Hurl. simpl.
    apply String.eqb_neq in Hne. rewrite Hne. simpl.
    unfold bind. rewrite Hcall. reflexivity. }
  split; [assumption|].
  intros Hdev. unfold strands_mcp_client.
  rewrite (local_dev_inactive _ Hdev). unfold bind. rewrite Hget. reflexivity.
Qed.

End GatewayClientMore.

Lemma local_dev_import_needs_no_gateway_witness :
  strands_mcp_client {[ "LOCAL_DEV" := "1" ]} sample_config unreachable 1000 initial_state
  = (Returns LocalDevClient, initial_state)
  ∧ ∀ (svc : services) (st' : state) (lg : list log_record),
      list_tools_sync svc LocalDevClient st' lg = (Returns [], lg).
Proof.
  apply (local_dev_import_needs_no_gateway {[ "LOCAL_DEV" := "1" ]} sample_config
           unreachable 1000 initial_state).
  reflexivity.
Defined.

Lemma token_failure_fails_construction_witness :
  get_streamable_http_mcp_client gateway_environ sample_config unreachable 1000 initial_state
  = (Raises (Exn "ConnectionError" true "Failed to establish a new connection"),
     {| _token_cache := {| token := PNone; expires_at := 0 |}; posted := 1 |})
  ∧ (gateway_environ !! "LOCAL_DEV" ≠ Some "1" →
     strands_mcp_client gateway_environ sample_config unreachable 1000 initial_state
     = (Raises (Exn "ConnectionError" true "Failed to establish a new connection"),
        {| _token_cache := {| token := PNone; expires_at := 0 |}; posted := 1 |})).
Proof.
  apply (token_failure_fails_construction gateway_environ sample_config unreachable 1000
           initial_state _ "https://gateway.example.com/mcp").
  - reflexivity.
  - discriminate.
  - reflexivity.
Defined.

(** ** More on the request handler *)

Section HandlerMore.

Variable inv : invocation.

Let session_id := resolve_session_id (payload inv) (context inv).
Let actor_id := resolve_actor_id (payload inv).
Let sandbox := MkCodeInterpreter (REGION inv) session_id true true.
Let local_tools := [code_interpreter_tool sandbox; analyze_text; calculate_basic_stats].

Lemma prepare_unfold (lg : list log_record) :
  prepare inv lg
  = match init_memory (svc inv) (MEMORY_ID inv) (REGION inv) session_id actor_id
            (lg ++ [invoke_called inv]) with
    | (Returns sm, lg') =>
        build_agent (svc inv) (client inv) (process inv) (REGION inv) session_id sm lg'
    | (Raises e, lg') => (Raises e, lg')
    end.
Proof. reflexivity. Qed.

Lemma prepare_returns (lg lg1 : list log_record) a :
  prepare inv lg = (Returns a, lg1) →
  ∃ sm lg',
    init_memory (svc inv) (MEMORY_ID inv) (REGION inv) session_id actor_id
      (lg ++ [invoke_called inv]) = (Returns sm, lg')
    ∧ build_agent (svc inv) (client inv) (process inv) (REGION inv) session_id sm lg'
      = (Returns a, lg1).
Proof.
  rewrite prepare_unfold.
  destruct (init_memory _ _ _ _ _ _) as [[sm|e] lg']; [|discriminate].
  intros Hbuild. exists sm, lg'. split; [reflexivity | exact Hbuild].
Qed.

Lemma build_agent_returns (sm : option session_manager) (lg lg1 : list log_record) a :
  build_agent (svc inv) (client inv) (process inv) (REGION inv) session_id sm lg
  = (Returns a, lg1) →
  ∃ tools model,
    list_tools_sync (svc inv) (client inv) (process inv) lg = (Returns tools, lg)
    ∧ a = {| agent_model := model;
             agent_session_manager := sm;
             agent_system_prompt := SYSTEM_PROMPT;
             agent_tools := local_tools ++ tools |}.
Proof.
  unfold build_agent. fold sandbox. unfold bind, construct, lift, raise, ret.
  destruct (sandbox_raises (svc inv) sandbox); [discriminate|].
  assert (Hlist : ∃ o, list_tools_sync (svc inv) (client inv) (process inv) lg = (o, lg)).
  { unfold list_tools_sync. destruct (client inv); eexists; reflexivity. }
  destruct Hlist as [o Hlist]. rewrite Hlist.
  destruct o as [tools|e]; [|discriminate].
  destruct (load_model (svc inv)) as [model|e]; [|discriminate].
  destruct (agent_raises (svc inv) _); [discriminate|].
  intros [= <- <-]. exists tools, model. split; reflexivity.
Qed.

(** X9: the [try] of line 229 does not cover the listing of the gateway
    tools: when the gateway raises there, even an exception that derives
    from [Exception], the first pull of the handler raises it; the caller
    gets no fragment and no error message. *)
Theorem gateway_listing_failure_is_not_caught
    c e (sm : option session_manager) (lg lg1 : list log_record) (fuel : nat) :
  client inv = GatewayClient c →
  init_memory (svc inv) (MEMORY_ID inv) (REGION inv) session_id actor_id
    (lg ++ [invoke_called inv]) = (Returns sm, lg1) →
  sandbox_raises (svc inv) sandbox = None →
  gateway_tools (svc inv) (transport_callable c (process inv)) = Raises e →
  consume (S fuel) inv Created lg = Some ([], Faulted e, lg1).
Proof.
  intros Hclient Hmem Hsandbox Hlist.
  assert (Hprep : prepare inv lg = (Raises e, lg1)).
  { rewrite prepare_unfold, Hmem.
    unfold build_agent. fold sandbox. unfold bind, construct, lift, ret.
    rewrite Hsandbox. unfold list_tools_sync. rewrite Hclient.
    unfold lift. rewrite Hlist. reflexivity. }
  cbn [consume invoke]. rewrite Hprep. reflexivity.
Qed.

(** X10: when [BEDROCK_AGENTCORE_MEMORY_ID] holds a non-empty identifier
    and the session manager is built without raising, the agent that the
    handler builds carries that session manager: the memory, session and
    actor identifiers of the request, the two namespaces under the actor
    identifier, and the region. *)
Theorem memory_session_reaches_agent (lg lg1 : list log_record) a :
  truthy (MEMORY_ID inv) = true →
  memory_raises (svc inv) (memory_config (MEMORY_ID inv) session_id actor_id) (REGION inv)
  = None →
  prepare inv lg = (Returns a, lg1) →
  agent_session_manager a
  = Some {| sm_config :=
              {| memory_id := MEMORY_ID inv;
                 mem_session_id := session_id;
                 mem_actor_id := actor_id;
                 retrieval_config :=
                   [([Lit "/"; Field actor_id; Lit "/facts"], MkRetrievalConfig 10 3);
                    ([Lit "/"; Field actor_id; Lit "/preferences"],
                     MkRetrievalConfig 5 3)] |};
            sm_region := REGION inv |}.
Proof.
  intros Hset Hok Hprep.
  destruct (prepare_returns _ _ _ Hprep) as (sm & lg' & Hmem & Hbuild).
  destruct (build_agent_returns _ _ _ _ Hbuild) as (tools & model & _ & ->).
  simpl. unfold init_memory in Hmem. rewrite Hset in Hmem.
  unfold try_except, bind, construct in Hmem. rewrite Hok in Hmem.
  unfold ret, log_info in Hmem. simpl in Hmem.
  injection Hmem as <- _. reflexivity.
Qed.

(** X11: an event without a string under ["data"] (no such key, or a value
    of another type) is skipped: with or without it in the underlying
    sequence, the consumer reads the same fragments, the same end and the
    same log. *)
Theorem non_text_events_are_skipped
    (evs1 evs2 : list event) (ev : event) (ending : option exn)
    (lg : list log_record) (fuel : nat) :
  (dict_lookup "data" ev = None
   ∨ ∃ v, dict_lookup "data" ev = Some v ∧ ∀ data, v ≠ PStr data) →
  (length (evs1 ++ ev :: evs2) + 2 ≤ fuel)%nat →
  consume fuel inv (SuspendedInLoop (evs1 ++ ev :: evs2) ending) lg
  = consume fuel inv (SuspendedInLoop (evs1 ++ evs2) ending) lg.
Proof.
  intros Hev Hfuel.
  assert (Hskip : event_text ev = None).
  { unfold event_text, dict_contains, dict_get.
    destruct Hev as [-> | (v & -> & Hv)]; [reflexivity|].
    destruct v; try reflexivity. exfalso. eapply Hv. reflexivity. }
  assert (Hsame : text_fragments (evs1 ++ ev :: evs2) = text_fragments (evs1 ++ evs2)).
  { unfold text_fragments. rewrite !omap_app. f_equal.
    change (omap event_text (ev :: evs2)) with (text_fragments (ev :: evs2)).
    rewrite text_fragments_cons, Hskip. reflexivity. }
  rewrite !consume_suspended.
  - rewrite Hsame. reflexivity.
  - rewrite length_app in *. simpl in Hfuel. lia.
  - assumption.
Qed.

(** X12: the agent gets the three local tools first, the sandbox being
    named after the session identifier, and behind them the tools the
    gateway listed, in the order listed and with any duplicates kept; in
    local-dev mode it gets the three local tools only. *)
Theorem agent_tools_are_local_then_gateway (lg lg1 : list log_record) a :
  prepare inv lg = (Returns a, lg1) →
  match client inv with
  | LocalDevClient => agent_tools a = local_tools
  | GatewayClient c =>
      ∃ tools,
        gateway_tools (svc inv) (transport_callable c (process inv)) = Returns tools
        ∧ agent_tools a = local_tools ++ tools
  end.
Proof.
  intros Hprep.
  destruct (prepare_returns _ _ _ Hprep) as (sm & lg' & _ & Hbuild).
  destruct (build_agent_returns _ _ _ _ Hbuild) as (tools & model & Hlist & ->).
  unfold list_tools_sync in Hlist. simpl.
  destruct (client inv) as [|c].
  - injection Hlist as <-. reflexivity.
  - unfold lift in Hlist. injection Hlist as Hlist. exists tools. split; [assumption|reflexivity].
Qed.

End HandlerMore.

Lemma gateway_listing_failure_is_not_caught_witness :
  exn_is_Exception gateway_down = true
  ∧ consume 1 (gateway_invocation ∅ (Raises gateway_down)) Created []
    = Some ([], Faulted gateway_down,
            [invoke_called (gateway_invocation ∅ (Raises gateway_down)); memory_id_not_set]).
Proof.
  split; [reflexivity|].
  apply (gateway_listing_failure_is_not_caught (gateway_invocation ∅ (Raises gateway_down))
           imported_client gateway_down None []); reflexivity.
Defined.

Lemma memory_session_reaches_agent_witness :
  ∃ a lg1,
    prepare (gateway_invocation memory_environ (Returns [])) [] = (Returns a, lg1)
    ∧ agent_session_manager a
      = Some {| sm_config :=
                  {| memory_id := PStr "memory-1";
                     mem_session_id := PStr "s-1";
                     mem_actor_id := PStr "u-1";
                     retrieval_config :=
                       [([Lit "/"; Field (PStr "u-1"); Lit "/facts"], MkRetrievalConfig 10 3);
                        ([Lit "/"; Field (PStr "u-1"); Lit "/preferences"],
                         MkRetrievalConfig 5 3)] |};
                sm_region := PNone |}.
Proof.
  eexists _, _. split; [reflexivity|].
  eapply (memory_session_reaches_agent (gateway_invocation memory_environ (Returns [])) []);
    reflexivity.
Defined.

Lemma non_text_events_are_skipped_witness :
  let inv := sample_invocation ∅ (sample_services None (Returns (Stream [] None))) in
  consume 5 inv (SuspendedInLoop ([text_event "Hel"] ++ tool_event :: [text_event "lo"]) None) []
  = consume 5 inv (SuspendedInLoop ([text_event "Hel"] ++ [text_event "lo"]) None) [].
Proof.
  intros inv.
  apply (non_text_events_are_skipped inv [text_event "Hel"] [text_event "lo"] tool_event
           None [] 5).
  - left. reflexivity.
  - simpl. lia.
Defined.

Lemma agent_tools_are_local_then_gateway_witness :
  let listing := [gateway_tool "search"; gateway_tool "fetch"; gateway_tool "search"] in
  let inv := gateway_invocation ∅ (Returns listing) in
  let a := {| agent_model := "sample-model";
              agent_session_manager := None;
              agent_system_prompt := SYSTEM_PROMPT;
              agent_tools :=
                [code_interpreter_tool (MkCodeInterpreter PNone (PStr "s-1") true true);
                 analyze_text; calculate_basic_stats;
                 gateway_tool "search"; gateway_tool "fetch"; gateway_tool "search"] |} in
  prepare inv [] = (Returns a, [invoke_called inv; memory_id_not_set])
  ∧ agent_tools a
    = [code_interpreter_tool (MkCodeInterpreter PNone (PStr "s-1") true true);
       analyze_text; calculate_basic_stats] ++ listing.
Proof.
  intros listing inv a. split; [reflexivity|].
  destruct (agent_tools_are_local_then_gateway inv [] [invoke_called inv; memory_id_not_set]
              a eq_refl)
    as (tools & Hlisted & Htools).
  injection Hlisted as <-. exact Htools.
Defined.

(** ** The tools *)

Import Str Tools NeoAmber NewAgent.

Section Strings.

Lemma append_cons (c : ascii) (s t : string) : String c s +:+ t = String c (s +:+ t).
Proof. reflexivity. Qed.

Lemma append_nil_r (s : string) : s +:+ "" = s.
Proof.
  induction s as [|c s IH]; [reflexivity|]. rewrite append_cons, IH. reflexivity.
Qed.

Lemma append_assoc (s1 s2 s3 : string) : (s1 +:+ s2) +:+ s3 = s1 +:+ (s2 +:+ s3).
Proof.
  induction s1 as [|c s1 IH]; [reflexivity|]. rewrite !append_cons, IH. reflexivity.
Qed.

Lemma prefix_append (a b h : string) :
  String.prefix (a +:+ b) h = true →
  ∃ h', h = a +:+ h' ∧ String.prefix b h' = true.
Proof.
  revert h. induction a as [|c a IH]; intros h Hp.
  - exists h. split; [reflexivity | exact Hp].
  - rewrite append_cons in Hp. destruct h as [|c' h]; [discriminate|].
    simpl in Hp. destruct (ascii_dec c c') as [->|]; [|discriminate].
    destruct (IH _ Hp) as (h' & -> & Hb). exists h'. split; [reflexivity | exact Hb].
Qed.

Lemma contains_unfold (needle hay : string) :
  contains needle hay
  = String.prefix needle hay
    || match hay with
       | EmptyString => false
       | String _ rest => contains needle rest
       end.
Proof. destruct hay; reflexivity. Qed.

Lemma prefix_contains (needle hay : string) :
  String.prefix needle hay = true → contains needle hay = true.
Proof. intros Hp. rewrite contains_unfold, Hp. reflexivity. Qed.

Lemma contains_append_l (needle a hay : string) :
  contains needle hay = true → contains needle (a +:+ hay) = true.
Proof.
  intros Hc. induction a as [|c a IH]; [exact Hc|].
  rewrite append_cons, contains_unfold, IH. apply orb_true_r.
Qed.

(** A text that contains [a ++ b] contains [b]. *)
Lemma contains_append_needle (a b hay : string) :
  contains (a +:+ b) hay = true → contains b hay = true.
Proof.
  induction hay as [|c hay IH]; rewrite (contains_unfold (a +:+ b)); intros Hc.
  - rewrite orb_false_r in Hc. destruct (prefix_append _ _ _ Hc) as (h' & -> & Hb).
    apply contains_append_l, prefix_contains, Hb.
  - apply orb_true_iff in Hc as [Hp | Hrest].
    + destruct (prefix_append _ _ _ Hp) as (h' & -> & Hb).
      apply contains_append_l, prefix_contains, Hb.
    + rewrite contains_unfold, (IH Hrest). apply orb_true_r.
Qed.

End Strings.


Section Audit.

Variable html_lower : string.

Let issues := fst (audit_findings html_lower).
Let recommendations := snd (audit_findings html_lower).

(** X14: every issue found comes with one recommendation of its own, and
    two standing recommendations (contrast, focus) close the list whatever
    the HTML is: there are always two more recommendations than issues. *)
Theorem recommendations_pair_with_issues :
  ∃ specific,
    length specific = length issues
    ∧ recommendations
      = specific ++ ["Verify color contrast meets WCAG 2.1 AA (4.5:1 for text)";
                     "Ensure focus states are visible for keyboard navigation"].
Proof.
  unfold issues, recommendations, audit_findings.
  destruct (contains "<img" html_lower && negb (contains "alt=" html_lower));
  destruct (contains "<button" html_lower && negb (contains "aria-label" html_lower));
  destruct (contains "<input" html_lower && negb (contains "<label" html_lower)
            && negb (contains "aria-label" html_lower));
  destruct (contains "<div" html_lower
            && (contains "onclick" html_lower || contains "click" html_lower));
  simpl;
  match goal with
  | |- ∃ specific, _ = ?n ∧ ?l = _ => exists (firstn n l); split; reflexivity
  end.
Qed.

(** X15: the div issue is reported exactly when the lower-cased HTML
    contains [<div] and contains [click] anywhere: the test for [onclick]
    adds nothing, and the word need not be an attribute of the div. *)
Theorem div_issue_iff_div_and_click :
  In div_with_click issues
  ↔ contains "<div" html_lower = true ∧ contains "click" html_lower = true.
Proof.
  assert (Htest : contains "<div" html_lower
                  && (contains "onclick" html_lower || contains "click" html_lower)
                  = contains "<div" html_lower && contains "click" html_lower).
  { destruct (contains "onclick" html_lower) eqn:Hon; [|reflexivity].
    rewrite (contains_append_needle "on" "click" _ Hon). reflexivity. }
  unfold issues, audit_findings. rewrite Htest.
  destruct (contains "<img" html_lower && negb (contains "alt=" html_lower));
  destruct (contains "<button" html_lower && negb (contains "aria-label" html_lower));
  destruct (contains "<input" html_lower && negb (contains "<label" html_lower)
            && negb (contains "aria-label" html_lower));
  destruct (contains "<div" html_lower); destruct (contains "click" html_lower);
  simpl; split; intros H;
    try (destruct H; discriminate);
    try (split; reflexivity);
    try (repeat (destruct H as [H|H]; [discriminate H|]); contradiction);
    auto 6.
Qed.

(** X16: an [aria-label] anywhere in the HTML silences both the button
    issue and the input issue, and an [alt=] anywhere silences the image
    issue, whichever element carries the attribute. *)
Theorem attribute_anywhere_silences_issue :
  (contains "aria-label" html_lower = true →
   ¬ In button_lacks_name issues ∧ ¬ In inputs_missing_labels issues)
  ∧ (contains "alt=" html_lower = true → ¬ In images_missing_alt issues).
Proof.
  unfold issues, audit_findings. split.
  - intros ->. rewrite !andb_false_r. simpl.
    destruct (contains "<img" html_lower && negb (contains "alt=" html_lower));
    destruct (contains "<div" html_lower
              && (contains "onclick" html_lower || contains "click" html_lower));
    simpl; split; intros H;
      repeat (destruct H as [H|H]; [discriminate H|]); contradiction.
  - intros ->. rewrite !andb_false_r. simpl.
    destruct (contains "<button" html_lower && negb (contains "aria-label" html_lower));
    destruct (contains "<input" html_lower && negb (contains "<label" html_lower)
              && negb (contains "aria-label" html_lower));
    destruct (contains "<div" html_lower
              && (contains "onclick" html_lower || contains "click" html_lower));
    simpl; intros H;
      repeat (destruct H as [H|H]; [discriminate H|]); contradiction.
Qed.

End Audit.

(** X17: HTML in which none of [<img], [<button], [<input], [<div] occurs
    after lower-casing (the empty string, plain text) gets the report with
    no issue and the two standing recommendations only. *)
Theorem tag_free_html_is_reported_clean (py : str_builtins) (component_html : string) :
  contains "<img" (str_lower py component_html) = false →
  contains "<button" (str_lower py component_html) = false →
  contains "<input" (str_lower py component_html) = false →
  contains "<div" (str_lower py component_html) = false →
  audit_accessibility py component_html
  = "## Accessibility Audit Report" +:+ LF +:+ LF
    +:+ "### âœ… No critical issues detected" +:+ LF +:+ LF
    +:+ "### Recommendations" +:+ LF
    +:+ "- Verify color contrast meets WCAG 2.1 AA (4.5:1 for text)" +:+ LF
    +:+ "- Ensure focus states are visible for keyboard navigation" +:+ LF.
Proof.
  intros Himg Hbutton Hinput Hdiv.
  unfold audit_accessibility, audit_findings.
  rewrite Himg, Hbutton, Hinput, Hdiv. reflexivity.
Qed.

Section Split.

Variables a b : ascii.

Let sep : string := String a (String b "").

(** Induction on a string two characters at a time, as [split2] recurses. *)
Lemma string_ind2 (P : string → Prop) :
  P "" →
  (∀ c, P (String c "")) →
  (∀ c d rest, P rest → P (String d rest) → P (String c (String d rest))) →
  ∀ s, P s.
Proof.
  intros Hnil Hone Hstep s.
  assert (H : P s ∧ ∀ c, P (String c s)); [|exact (proj1 H)].
  induction s as [|d s [IHs IHc]].
  - split; [exact Hnil | exact Hone].
  - split; [apply IHc|]. intros c. apply Hstep; [exact IHs | apply IHc].
Qed.

Lemma split2_cons (cur : string) (c d : ascii) (rest : string) :
  split2 a b cur (String c (String d rest))
  = if Ascii.eqb c a && Ascii.eqb d b then cur :: split2 a b "" rest
    else split2 a b (cur +:+ String c "") (String d rest).
Proof. reflexivity. Qed.

Lemma split2_nonempty (s cur : string) : ∃ x l, split2 a b cur s = x :: l.
Proof.
  revert cur. induction s as [| c | c d rest IHrest IHtl] using string_ind2; intros cur.
  - eexists _, _. reflexivity.
  - eexists _, _. reflexivity.
  - rewrite split2_cons. destruct (Ascii.eqb c a && Ascii.eqb d b).
    + eexists _, _. reflexivity.
    + apply IHtl.
Qed.

Lemma join_cons (x y : string) (l : list string) :
  join sep (x :: y :: l) = x +:+ sep +:+ join sep (y :: l).
Proof. reflexivity. Qed.

(** Joining the pieces with the separator gives the text back. *)
Lemma join_split2 (s cur : string) : join sep (split2 a b cur s) = cur +:+ s.
Proof.
  revert cur. induction s as [| c | c d rest IHrest IHtl] using string_ind2; intros cur.
  - simpl. symmetry. apply append_nil_r.
  - reflexivity.
  - rewrite split2_cons. destruct (Ascii.eqb c a && Ascii.eqb d b) eqn:Hsep.
    + apply andb_true_iff in Hsep as [Hc Hd].
      apply Ascii.eqb_eq in Hc, Hd. subst c d.
      destruct (split2_nonempty rest "") as (x & l & Hx).
      pose proof (IHrest "") as IH. rewrite Hx in *.
      rewrite join_cons, IH. reflexivity.
    + rewrite IHtl, append_assoc. reflexivity.
Qed.

Lemma join_snoc (l : list string) (x y : string) :
  join sep ((x :: l) ++ [y]) = join sep (x :: l) +:+ sep +:+ y.
Proof.
  revert x. induction l as [|z l IH]; intros x; [reflexivity|].
  change ((x :: z :: l) ++ [y]) with (x :: ((z :: l) ++ [y])).
  destruct ((z :: l) ++ [y]) as [|w l'] eqn:Hl; [discriminate|].
  rewrite join_cons, <- Hl, IH, join_cons, !append_assoc. reflexivity.
Qed.

Lemma prefix_nil (s : string) : String.prefix "" s = true.
Proof. destruct s; reflexivity. Qed.

Lemma contains_sep_short (s : string) :
  (String.length s ≤ 1)%nat → contains sep s = false.
Proof.
  destruct s as [|c [|d s]]; simpl; intros Hlen;
    [reflexivity | destruct (ascii_dec a c); reflexivity | lia].
Qed.

Lemma prefix_append_r (needle s y : string) :
  String.prefix needle s = true → String.prefix needle (s +:+ y) = true.
Proof.
  revert s. induction needle as [|e needle IH]; intros s Hp; [apply prefix_nil|].
  destruct s as [|c s]; [discriminate|].
  rewrite append_cons. simpl in *.
  destruct (ascii_dec e c); [apply IH; assumption | discriminate].
Qed.

Lemma contains_append_r (needle x y : string) :
  contains needle x = true → contains needle (x +:+ y) = true.
Proof.
  induction x as [|c x IH]; rewrite contains_unfold; intros Hc.
  - rewrite orb_false_r in Hc. apply prefix_contains, prefix_append_r, Hc.
  - apply orb_true_iff in Hc as [Hp | Hrest].
    + apply prefix_contains, prefix_append_r, Hp.
    + rewrite append_cons, contains_unfold, (IH Hrest). apply orb_true_r.
Qed.

(** Adding a character [d] after a text that ends in [c] and holds no
    separator gives a separator only if [c], [d] is the separator. *)
Lemma contains_sep_snoc (x : string) (c d : ascii) :
  contains sep (x +:+ String c "") = false →
  Ascii.eqb c a && Ascii.eqb d b = false →
  contains sep ((x +:+ String c "") +:+ String d "") = false.
Proof.
  intros Hx Hcd. induction x as [|e x IH].
  - change (contains sep (String c (String d "")) = false).
    rewrite contains_unfold, (contains_sep_short (String d "")) by (simpl; lia).
    rewrite orb_false_r. simpl.
    destruct (ascii_dec a c) as [->|]; [|reflexivity].
    destruct (ascii_dec b d) as [->|]; [|reflexivity].
    rewrite !Ascii.eqb_refl in Hcd. discriminate.
  - rewrite !append_cons in *. rewrite contains_unfold in Hx.
    apply orb_false_iff in Hx as [Hp Hrest].
    rewrite contains_unfold, (IH Hrest), orb_false_r.
    destruct (x +:+ String c "") as [|f y] eqn:Hy.
    { destruct x; discriminate. }
    rewrite append_cons. simpl in *.
    destruct (ascii_dec a e); [|reflexivity].
    destruct (ascii_dec b f); [|reflexivity].
    rewrite prefix_nil in Hp. discriminate.
Qed.

(** No piece of a split holds the separator. *)
Lemma split2_pieces (s cur : string) :
  contains sep (cur +:+ head1 s) = false →
  Forall (fun piece => contains sep piece = false) (split2 a b cur s).
Proof.
  revert cur. induction s as [| c | c d rest IHrest IHtl] using string_ind2; intros cur Hcur.
  - simpl in *. rewrite append_nil_r in Hcur. repeat constructor. exact Hcur.
  - repeat constructor. exact Hcur.
  - rewrite split2_cons. simpl head1 in Hcur.
    destruct (Ascii.eqb c a && Ascii.eqb d b) eqn:Hsep.
    + constructor.
      * destruct (contains sep cur) eqn:Hc; [|reflexivity].
        rewrite (contains_append_r _ _ (String c "") Hc) in Hcur. discriminate.
      * apply IHrest. apply contains_sep_short. destruct rest; simpl; lia.
    + apply IHtl. simpl head1. apply contains_sep_snoc; assumption.
Qed.

End Split.

Lemma count_present_none (words : list string) (text : string) :
  (∀ word, In word words → contains word text = false) →
  count_present words text = 0%nat.
Proof.
  unfold count_present. induction words as [|w words IH]; intros Hnone; [reflexivity|].
  rewrite filter_cons_False.
  - apply IH. intros word Hin. apply Hnone. right. exact Hin.
  - rewrite (Hnone w) by (left; reflexivity). discriminate.
Qed.

(** X18: a summary is the text itself when [". "] cuts it into at most
    three sentences; otherwise it is the text with everything between the
    first and the last separator removed: the first sentence, [". "], and
    the last sentence, neither of which holds a separator. *)
Theorem summary_keeps_first_and_last_sentence (py : str_builtins) (text : string) :
  ((length (split2 "." " " "" text) ≤ 3)%nat
   ∧ analyze_text py text "summary" = "Summary: " +:+ text)
  ∨ ((3 < length (split2 "." " " "" text))%nat
     ∧ ∃ first middle last,
       text = first +:+ ". " +:+ middle +:+ ". " +:+ last
       ∧ contains ". " first = false
       ∧ contains ". " last = false
       ∧ analyze_text py text "summary" = "Summary: " +:+ first +:+ ". " +:+ last).
Proof.
  unfold analyze_text. cbn [String.eqb Ascii.eqb Bool.eqb].
  pose proof (join_split2 "." " " text "") as Hjoin.
  pose proof (split2_pieces "." " " text "") as Hpieces.
  destruct (Nat.leb_spec (length (split2 "." " " "" text)) 3) as [Hshort | Hlong].
  { left. split; [exact Hshort | reflexivity]. }
  right. split; [exact Hlong|].
  destruct (split2 "." " " "" text) as [|first [|m rest]]; simpl in Hlong; try lia.
  destruct (exists_last (l := rest)) as (ms & last & ->).
  { intros ->. simpl in Hlong. lia. }
  exists first, (join ". " (m :: ms)), last.
  assert (Hnosep : contains ". " ("" +:+ head1 text) = false).
  { apply contains_sep_short. destruct text; simpl; lia. }
  specialize (Hpieces Hnosep).
  repeat split.
  - transitivity (join ". " (first :: m :: ms ++ [last])); [symmetry; exact Hjoin|].
    change (first :: m :: ms ++ [last]) with (first :: ((m :: ms) ++ [last])).
    destruct ((m :: ms) ++ [last]) as [|w l'] eqn:Hl; [discriminate|].
    rewrite join_cons, <- Hl, join_snoc. reflexivity.
  - inversion Hpieces; assumption.
  - apply (proj1 (List.Forall_forall _ _) Hpieces).
    right. right. apply in_or_app. right. left. reflexivity.
  - unfold first_item, last_item. simpl hd.
    change (first :: m :: ms ++ [last]) with ((first :: m :: ms) ++ [last]).
    rewrite last_last. reflexivity.
Qed.

(** X19: a text whose lower-cased form contains none of the seventeen
    indicator words is reported neutral, with both counts at zero. *)
Theorem text_without_indicator_words_is_neutral (py : str_builtins) (text : string) :
  (∀ word, In word (positive_words ++ negative_words) →
           contains word (str_lower py text) = false) →
  analyze_text py text "sentiment"
  = "Sentiment Analysis: Neutral (Positive indicators: 0, Negative indicators: 0)".
Proof.
  intros Hnone. unfold analyze_text. cbn [String.eqb Ascii.eqb Bool.eqb].
  rewrite !count_present_none; [reflexivity | |];
    intros word Hin; apply Hnone, in_or_app; auto.
Qed.

Lemma attribute_anywhere_silences_issue_witness :
  let html := "<button></button><input><img src='a.png'><span aria-label='x' alt='y'>" in
  (¬ In button_lacks_name (fst (audit_findings html))
   ∧ ¬ In inputs_missing_labels (fst (audit_findings html)))
  ∧ ¬ In images_missing_alt (fst (audit_findings html)).
Proof.
  intros html. split.
  - apply (proj1 (attribute_anywhere_silences_issue html)). reflexivity.
  - apply (proj2 (attribute_anywhere_silences_issue html)). reflexivity.
Defined.

Lemma tag_free_html_is_reported_clean_witness :
  audit_accessibility ascii_builtins "<P>Plain TEXT</P>"
  = audit_accessibility ascii_builtins "".
Proof.
  rewrite (tag_free_html_is_reported_clean ascii_builtins "<P>Plain TEXT</P>");
    reflexivity.
Defined.

Lemma text_without_indicator_words_is_neutral_witness :
  analyze_text ascii_builtins "The SKY is blue." "sentiment"
  = "Sentiment Analysis: Neutral (Positive indicators: 0, Negative indicators: 0)".
Proof.
  apply (text_without_indicator_words_is_neutral ascii_builtins "The SKY is blue.").
  intros word Hin. simpl in Hin.
  repeat (destruct Hin as [<-|Hin]; [reflexivity|]). contradiction.
Defined.
